(** * Riemannian metrics, cometrics and the manifold test cases

    A shallow embedding of [geomstats/geometry/riemannian_metric.py] and of
    the base manifold checks of [geomstats/test/geometry/base.py].

    Arrays are modelled the way the numeric backend stores them: a shape and
    a flat row-major buffer.  Python exceptions are an explicit error type and
    every operation that can raise lives in the result monad [M].  The
    scalars and the backend capabilities the module does not define itself
    (matrix inversion, automatic differentiation, the ODE integrator) are the
    fields of the class [Backend]. *)

From Stdlib Require Import String Ascii ZArith QArith Arith Lia Bool List.
Import ListNotations.
Local Open Scope string_scope.
Local Open Scope list_scope.
Local Open Scope nat_scope.

Set Implicit Arguments.

(** ** Exceptions and the result monad *)

Inductive exn : Type :=
| NotImplementedError (msg : string)
| ValueError (msg : string)
| IndexError (msg : string)
| TypeError (msg : string)
| AssertionError (msg : string)
| LinAlgError (msg : string)
| ZeroDivisionError (msg : string).

Inductive M (A : Type) : Type :=
| Ok (a : A)
| Raise (e : exn).

Arguments Ok {A} a.
Arguments Raise {A} e.

Definition bind {A B : Type} (c : M A) (k : A -> M B) : M B :=
  match c with
  | Ok a => k a
  | Raise e => Raise e
  end.

Declare Scope py_scope.
Delimit Scope py_scope with py.
Notation "x <- c ;; k" := (bind c (fun x => k))
  (at level 61, c at next level, right associativity) : py_scope.
Notation "' p <- c ;; k" := (bind c (fun x => match x with p => k end))
  (at level 61, p pattern, c at next level, right associativity) : py_scope.
Local Open Scope py_scope.

Fixpoint mapM {A B : Type} (f : A -> M B) (l : list A) : M (list B) :=
  match l with
  | [] => Ok []
  | x :: l' => y <- f x ;; ys <- mapM f l' ;; Ok (y :: ys)
  end.

(** ** Arrays: a shape and a row-major buffer *)

Record ndarray (A : Type) : Type := mk_array {
  shape : list nat;
  data : list A
}.

Arguments mk_array {A} shape data.

Definition ndim {A} (a : ndarray A) : nat := length (shape a).

Definition prod_shape (s : list nat) : nat := fold_right Nat.mul 1 s.

Definition wf_array {A} (a : ndarray A) : Prop :=
  length (data a) = prod_shape (shape a).

(** All multi-indices of a shape, in row-major order. *)
Fixpoint indices (s : list nat) : list (list nat) :=
  match s with
  | [] => [[]]
  | n :: s' => flat_map (fun i => map (cons i) (indices s')) (seq 0 n)
  end.

(** Row-major offset of a multi-index. *)
Fixpoint ravel (s idx : list nat) : nat :=
  match s, idx with
  | _ :: s', i :: idx' => i * prod_shape s' + ravel s' idx'
  | _, _ => 0
  end.

Definition build {A} (s : list nat) (f : list nat -> A) : ndarray A :=
  mk_array s (map f (indices s)).

Definition get {A} (d : A) (a : ndarray A) (idx : list nat) : A :=
  nth (ravel (shape a) idx) (data a) d.

Definition map_array {A B} (f : A -> B) (a : ndarray A) : ndarray B :=
  mk_array (shape a) (map f (data a)).

Definition full {A} (s : list nat) (x : A) : ndarray A :=
  mk_array s (repeat x (prod_shape s)).

Definition scalar {A} (x : A) : ndarray A := mk_array [] [x].

(** An index is in bounds when it has the rank of the shape and every
    component is below the corresponding extent. *)
Definition in_bounds (idx s : list nat) : Prop := Forall2 lt idx s.

Definition insert_at {A} (k : nat) (x : A) (l : list A) : list A :=
  firstn k l ++ x :: skipn k l.

(** Modelled from the spec: the numeric backend [geomstats.backend], which is
    not part of the sources at hand.  Its operations (array construction,
    indexing and iteration, broadcasting, [einsum], [transpose], square root,
    [amax], [maximum], [argmin], [to_ndarray]) follow the capabilities the
    specification lists for it and the conventions of the array library
    underneath. *)

(** [expand_dims]: a new axis of extent one, the buffer is unchanged. *)
Definition expand_dims {A} (a : ndarray A) (axis : nat) : ndarray A :=
  mk_array (insert_at axis 1 (shape a)) (data a).

(** Modelled from the spec: [gs.to_ndarray(x, to_ndim, axis)] gives a value an
    explicit batch axis: an array one rank short of [to_ndim] receives a new
    axis at [axis]; any other array is returned as it is. *)
Definition to_ndarray {A} (x : ndarray A) (to_ndim axis : nat) : ndarray A :=
  if S (ndim x) =? to_ndim then expand_dims x axis else x.

(** [a[i]] for an in-range [i]: the sub-array at position [i] of the leading
    axis. *)
Definition subarray {A} (s : list nat) (buf : list A) (i : nat) : ndarray A :=
  mk_array s (firstn (prod_shape s) (skipn (i * prod_shape s) buf)).

(** Iterating over an array yields its sub-arrays along the leading axis;
    a 0-d array is not iterable. *)
Definition iter_array {A} (a : ndarray A) : M (list (ndarray A)) :=
  match shape a with
  | [] => Raise (TypeError "iteration over a 0-d array")
  | n :: s => Ok (map (subarray s (data a)) (seq 0 n))
  end.

(** [a[k:]]: the slice of the leading axis from [k] on. *)
Definition slice_from {A} (a : ndarray A) (k : nat) : M (ndarray A) :=
  match shape a with
  | [] => Raise (IndexError "too many indices for array")
  | n :: s => Ok (mk_array ((n - k) :: s) (skipn (k * prod_shape s) (data a)))
  end.

(** [a[i, :]]: needs at least two axes and an in-range [i]. *)
Definition row_of {A} (a : ndarray A) (i : nat) : M (ndarray A) :=
  match shape a with
  | n :: (_ :: _) as s =>
      if i <? n then Ok (subarray s (data a) i)
      else Raise (IndexError "index out of bounds")
  | _ => Raise (IndexError "too many indices for array")
  end.

(** [a[k:, :]]. *)
Definition rows_from {A} (a : ndarray A) (k : nat) : M (ndarray A) :=
  match shape a with
  | _ :: _ :: _ => slice_from a k
  | _ => Raise (IndexError "too many indices for array")
  end.

(** [a.shape[0]]. *)
Definition shape0 {A} (a : ndarray A) : M nat :=
  match shape a with
  | [] => Raise (IndexError "tuple index out of range")
  | n :: _ => Ok n
  end.

Definition enumerate {A} (l : list A) : list (nat * A) :=
  combine (seq 0 (length l)) l.

Fixpoint list_eqb {A} (eqb : A -> A -> bool) (l1 l2 : list A) : bool :=
  match l1, l2 with
  | [], [] => true
  | x :: l1', y :: l2' => eqb x y && list_eqb eqb l1' l2'
  | _, _ => false
  end.

Definition array_eqb {A} (eqb : A -> A -> bool) (a b : ndarray A) : bool :=
  list_eqb Nat.eqb (shape a) (shape b) && list_eqb eqb (data a) (data b).

(** ** Broadcasting *)

Fixpoint broadcast_rev (r1 r2 : list nat) : M (list nat) :=
  match r1, r2 with
  | [], r => Ok r
  | r, [] => Ok r
  | a :: r1', b :: r2' =>
      rest <- broadcast_rev r1' r2' ;;
      if a =? b then Ok (a :: rest)
      else if a =? 1 then Ok (b :: rest)
      else if b =? 1 then Ok (a :: rest)
      else Raise (ValueError "operands could not be broadcast together")
  end.

(** Shapes are aligned on their trailing axes; an extent of one stretches. *)
Definition broadcast_shapes (s1 s2 : list nat) : M (list nat) :=
  r <- broadcast_rev (rev s1) (rev s2) ;; Ok (rev r).

(** The index an operand of shape [s] is read at, for the index [idx] of the
    broadcast result. *)
Definition bcast_index (s idx : list nat) : list nat :=
  map (fun ni => if fst ni =? 1 then 0 else snd ni)
      (combine s (skipn (length idx - length s) idx)).

(** ** Subscripts of [einsum] *)

Record operand : Type := mk_operand {
  has_ellipsis : bool;
  labels : list ascii
}.

Definition parse_operand (s : list ascii) : operand :=
  match s with
  | "."%char :: "."%char :: "."%char :: rest => mk_operand true rest
  | _ => mk_operand false s
  end.

Fixpoint split_comma (s : list ascii) : option (list ascii * list ascii) :=
  match s with
  | [] => None
  | c :: s' =>
      if Ascii.eqb c ","%char then Some ([], s')
      else match split_comma s' with
           | Some (l, r) => Some (c :: l, r)
           | None => None
           end
  end.

Fixpoint split_arrow (s : list ascii) : option (list ascii * list ascii) :=
  match s with
  | [] => None
  | c :: s' =>
      match c, s' with
      | "-"%char, ">"%char :: r => Some ([], r)
      | _, _ => match split_arrow s' with
                | Some (l, r) => Some (c :: l, r)
                | None => None
                end
      end
  end.

(** ["A,B->C"], blanks ignored. *)
Definition parse_subscripts (subscripts : string)
  : M (operand * operand * operand) :=
  let s := filter (fun c => negb (Ascii.eqb c " "%char))
                  (list_ascii_of_string subscripts) in
  match split_comma s with
  | None => Raise (ValueError "einsum: two operands expected")
  | Some (sa, rest) =>
      match split_arrow rest with
      | None => Raise (ValueError "einsum: explicit output expected")
      | Some (sb, so) =>
          Ok (parse_operand sa, parse_operand sb, parse_operand so)
      end
  end.

(** The batch axes (those the ellipsis stands for) and the named axes. *)
Definition split_dims (o : operand) (s : list nat) : M (list nat * list nat) :=
  let k := length (labels o) in
  if has_ellipsis o then
    if k <=? length s
    then Ok (firstn (length s - k) s, skipn (length s - k) s)
    else Raise (ValueError "einsum: operand has too few axes")
  else
    if k =? length s then Ok ([], s)
    else Raise (ValueError "einsum: operand rank does not match subscripts").

Definition env : Type := list (ascii * nat).

Fixpoint lookup (e : env) (l : ascii) : option nat :=
  match e with
  | [] => None
  | (l', n) :: e' => if Ascii.eqb l l' then Some n else lookup e' l
  end.

Definition lookup0 (e : env) (l : ascii) : nat :=
  match lookup e l with Some n => n | None => 0 end.

(** Extents of the labels, checked for consistency across operands. *)
Fixpoint bind_labels (ls : list ascii) (dims : list nat) (e : env) : M env :=
  match ls, dims with
  | [], [] => Ok e
  | l :: ls', n :: dims' =>
      match lookup e l with
      | Some m =>
          if m =? n then bind_labels ls' dims' e
          else Raise (ValueError "einsum: inconsistent extents for a label")
      | None => bind_labels ls' dims' (e ++ [(l, n)])
      end
  | _, _ => Raise (ValueError "einsum: operand rank does not match subscripts")
  end.

Fixpoint lookup_all (e : env) (ls : list ascii) : M (list nat) :=
  match ls with
  | [] => Ok []
  | l :: ls' =>
      match lookup e l with
      | Some n => ns <- lookup_all e ls' ;; Ok (n :: ns)
      | None => Raise (ValueError "einsum: output label not in the inputs")
      end
  end.

Definition mem_label (l : ascii) (ls : list ascii) : bool :=
  existsb (Ascii.eqb l) ls.

(** ** Dynamically typed values of the Hamiltonian part *)

#[warnings="-register-all"]
Inductive pyval (A : Type) : Type :=
| PArr (a : ndarray A)
| PTuple (items : list (pyval A)).

Arguments PArr {A} a.
Arguments PTuple {A} items.

(** ** The numeric backend

    The scalars with their arithmetic, and the capabilities the module takes
    from outside, none of which is part of the sources at hand: general
    matrix inversion ([gs.linalg.inv]), the Jacobian of a function
    ([autograd.jacobian]), the gradient of a scalar function of a possibly
    paired argument (the gradient half of [gs.autograd.value_and_grad]) and
    the ODE integrator ([geomstats.integrator.integrate]), which returns the
    sequence of positions and the sequence of momenta of the discretized
    trajectory.  They are parameters: nothing is assumed of them. *)

Class Backend : Type := {
  R : Type;
  zero : R;
  one : R;
  half : R;
  two : R;
  add : R -> R -> R;
  mul : R -> R -> R;
  div : R -> R -> R;
  neg : R -> R;
  sqrt : R -> R;
  max : R -> R -> R;
  ltb : R -> R -> bool;
  linalg_inv : ndarray R -> M (ndarray R);
  jacobian : (ndarray R -> M (ndarray R)) -> ndarray R -> M (ndarray R);
  autograd_grad : (pyval R -> M (pyval R)) -> pyval R -> M (pyval R);
  integrate : (ndarray R -> ndarray R -> M (pyval R)) -> pyval R ->
              nat -> string -> M (pyval R)
}.

Section Numeric.
Context {B : Backend}.

Definition sum_range (n : nat) (f : nat -> R) : R :=
  fold_right (fun m acc => add (f m) acc) zero (seq 0 n).

(** Sum of [body] over every assignment of the labels [ls]. *)
Fixpoint sum_over (sizes : env) (ls : list ascii) (e : env) (body : env -> R) : R :=
  match ls with
  | [] => body e
  | l :: ls' =>
      sum_range (lookup0 sizes l)
                (fun v => sum_over sizes ls' ((l, v) :: e) body)
  end.

(** Modelled from the spec: [gs.einsum(subscripts, a, b)], the einsum-style
    tensor contraction, with an explicit output.  The axes an ellipsis
    stands for are batch axes and broadcast; the labels absent from the
    output are summed. *)
Definition einsum (subscripts : string) (a b : ndarray R) : M (ndarray R) :=
  ' (sa, sb, so) <- parse_subscripts subscripts ;;
  ' (ba, da) <- split_dims sa (shape a) ;;
  ' (bb, db) <- split_dims sb (shape b) ;;
  e0 <- bind_labels (labels sa) da [] ;;
  sizes <- bind_labels (labels sb) db e0 ;;
  bs <- broadcast_shapes ba bb ;;
  osz <- lookup_all sizes (labels so) ;;
  if negb (has_ellipsis so) && negb (length bs =? 0)
  then Raise (ValueError "einsum: output has no ellipsis for the batch axes")
  else
    let summed := filter (fun l => negb (mem_label l (labels so)))
                         (map fst sizes) in
    Ok (build (bs ++ osz) (fun idx =>
          let bi := firstn (length bs) idx in
          let oe := combine (labels so) (skipn (length bs) idx) in
          sum_over sizes summed oe (fun e =>
            mul (get zero a (bcast_index ba bi ++ map (lookup0 e) (labels sa)))
                (get zero b (bcast_index bb bi ++ map (lookup0 e) (labels sb)))))).

(** Elementwise binary operation with broadcasting. *)
Definition broadcast2 (f : R -> R -> R) (a b : ndarray R) : M (ndarray R) :=
  s <- broadcast_shapes (shape a) (shape b) ;;
  Ok (build s (fun idx =>
        f (get zero a (bcast_index (shape a) idx))
          (get zero b (bcast_index (shape b) idx)))).

Fixpoint index_of (p : nat) (l : list nat) : nat :=
  match l with
  | [] => 0
  | x :: l' => if x =? p then 0 else S (index_of p l')
  end.

Definition is_permutation (axes : list nat) (n : nat) : bool :=
  (length axes =? n)
  && forallb (fun p => existsb (Nat.eqb p) axes) (seq 0 n).

(** Modelled from the spec: [gs.transpose(a, axes)], the transpose with an
    explicit axis permutation: axis [k] of the result is axis [axes[k]] of
    [a]. *)
Definition transpose (a : ndarray R) (axes : list nat) : M (ndarray R) :=
  if is_permutation axes (ndim a) then
    Ok (build (map (fun ax => nth ax (shape a) 0) axes) (fun idx =>
          get zero a (map (fun p => nth (index_of p axes) idx 0)
                          (seq 0 (ndim a)))))
  else Raise (ValueError "axes don't match array").

Definition gs_sqrt (a : ndarray R) : ndarray R := map_array sqrt a.

(** [gs.amax]: the maximum over all entries. *)
Definition amax (a : ndarray R) : M (ndarray R) :=
  match data a with
  | [] => Raise (ValueError "zero-size array to reduction operation maximum")
  | x :: xs => Ok (scalar (fold_left max xs x))
  end.

Definition maximum (a b : ndarray R) : M (ndarray R) := broadcast2 max a b.

Fixpoint argmin_from (best : R) (best_i i : nat) (l : list R) : nat :=
  match l with
  | [] => best_i
  | x :: l' =>
      if ltb x best then argmin_from x i (S i) l'
      else argmin_from best best_i (S i) l'
  end.

(** [gs.argmin]: the first index of a smallest entry of the flattened
    array. *)
Definition argmin (a : ndarray R) : M nat :=
  match data a with
  | [] => Raise (ValueError "attempt to get argmin of an empty sequence")
  | x :: xs => Ok (argmin_from x 0 1 xs)
  end.

Definition ones (s : list nat) : ndarray R := full s one.

Definition zeros_bool (n : nat) : ndarray bool := full [n] false.

(** Modelled from the spec: the argument-vectorization decorator
    [geomstats.vectorization.decorator], which is not part of the sources at
    hand.  An argument of role ['vector'] is normalized to carry a batch
    axis before the wrapped operation runs; an absent argument stays
    absent. *)
Definition vectorize_vector (x : ndarray R) : ndarray R := to_ndarray x 2 0.

(** Modelled from the spec: the other half of the same decorator, which
    adapts the result of the wrapped operation to the shapes the caller
    passed.  The sources rely on it: the documented result of
    [inner_product] has shape [[...,]], [orthonormal_basis] contracts a
    squared norm as a one-axis array and [dist_pairwise] collects distances
    as scalars.  A result of shape [(n, 1)] stands for [n] scalars and loses
    its axis 1; its axis 0 goes too when it has extent one and no vector
    argument came with a batch axis. *)
Definition squeeze_dim_1 (result : ndarray R) : ndarray R :=
  match shape result with
  | [n; 1] => mk_array [n] (data result)
  | _ => result
  end.

Definition squeeze_dim_0 (result : ndarray R) : ndarray R :=
  match shape result with
  | 1 :: rest => mk_array rest (data result)
  | _ => result
  end.

Definition came_unbatched (in_shapes : list (list nat)) : bool :=
  forallb (fun s => length s <? 2) in_shapes.

Definition adapt_result (in_shapes : list (list nat)) (result : ndarray R)
  : ndarray R :=
  let result := squeeze_dim_1 result in
  if came_unbatched in_shapes then squeeze_dim_0 result else result.

(** Tuple unpacking [x, y = v]. *)
Definition unpack2 (v : pyval R) : M (pyval R * pyval R) :=
  match v with
  | PTuple [x; y] => Ok (x, y)
  | PTuple _ => Raise (ValueError "wrong number of values to unpack")
  | PArr a =>
      rows <- iter_array a ;;
      match rows with
      | [x; y] => Ok (PArr x, PArr y)
      | _ => Raise (ValueError "wrong number of values to unpack")
      end
  end.

Definition as_array (v : pyval R) : M (ndarray R) :=
  match v with
  | PArr a => Ok a
  | PTuple _ => Raise (TypeError "an array is expected, not a tuple")
  end.

(** Unary minus. *)
Definition py_neg (v : pyval R) : M (pyval R) :=
  match v with
  | PArr a => Ok (PArr (map_array neg a))
  | PTuple _ => Raise (TypeError "bad operand type for unary -: 'tuple'")
  end.

(** [seq[-1]]. *)
Definition last_item (v : pyval R) : M (pyval R) :=
  match v with
  | PTuple items =>
      match rev items with
      | [] => Raise (IndexError "index out of range")
      | x :: _ => Ok x
      end
  | PArr a =>
      rows <- iter_array a ;;
      match rev rows with
      | [] => Raise (IndexError "index -1 is out of bounds")
      | x :: _ => Ok (PArr x)
      end
  end.

(** Modelled from the spec: [gs.autograd.value_and_grad], the
    value-and-gradient of a scalar function; the function it returns yields
    the value first and the gradient second.  Over a paired argument the
    gradient is the pair of the partial gradients. *)
Definition value_and_grad (f : pyval R -> M (pyval R)) (x : pyval R)
  : M (pyval R) :=
  v <- f x ;;
  g <- autograd_grad f x ;;
  Ok (PTuple [v; g]).

End Numeric.

(** The order [n] of the matrix a sequence of [n(n+1)/2] values fills. *)
Definition mat_dim_of (vec_dim : nat) : nat :=
  (Nat.sqrt (8 * vec_dim + 1) - 1) / 2.

Fixpoint row_offset (n i : nat) : nat :=
  match i with
  | 0 => 0
  | S i' => row_offset n i' + (n - i')
  end.

Definition triu_index (n i j : nat) : nat :=
  row_offset n (Nat.min i j) + (Nat.max i j - Nat.min i j).

(** Modelled from the spec: [SymmetricMatrices.from_vector], the
    vector-to-symmetric-matrix embedding, which is not part of the sources at
    hand.  A sequence of [n(n+1)/2] values is read as the upper triangle of an
    [n] by [n] matrix, row after row, and mirrored below the diagonal; a
    sequence of any other length is refused. *)
Definition from_vector {A} (vec : list A) : M (list (list A)) :=
  let n := mat_dim_of (length vec) in
  if n * (n + 1) / 2 =? length vec then
    mapM (fun i =>
      mapM (fun j =>
        match nth_error vec (triu_index n i j) with
        | Some x => Ok x
        | None => Raise (IndexError "index out of range")
        end) (seq 0 n)) (seq 0 n)
  else Raise (ValueError "Invalid input dimension, it must be of the form n(n+1)/2").

(** ** Objects

    A metric object carries its construction parameters and its two
    late-bound operations: [metric_matrix], the override point of the class,
    and the logarithmic map, which the class inherits from the connection it
    extends and which is not part of the sources at hand: it is a parameter
    of the object.  [self_log self point base_point] is
    [self.log(point=..., base_point=...)]. *)

Record metric_object {B : Backend} : Type := mk_metric {
  dim : nat;
  signature : option (list nat);
  default_point_type : string;
  self_metric_matrix : option (ndarray R) -> M (ndarray R);
  self_log : ndarray R -> ndarray R -> M (ndarray R)
}.

(** A cometric object is driven by [cometric_matrix] instead. *)
Record cometric_object {B : Backend} : Type := mk_cometric {
  co_dim : nat;
  co_signature : option (list nat);
  co_default_point_type : string;
  self_cometric_matrix : option (ndarray R) -> M (ndarray R);
  co_log : ndarray R -> ndarray R -> M (ndarray R)
}.

Arguments mk_metric {B} dim signature default_point_type self_metric_matrix self_log.
Arguments mk_cometric {B} co_dim co_signature co_default_point_type
  self_cometric_matrix co_log.

Definition N_STEPS : nat := 10.

Module RiemannianMetric.
Section Methods.
Context {B : Backend}.

(** The unimplemented hook of the base class. *)
Definition metric_matrix (base_point : option (ndarray R)) : M (ndarray R) :=
  Raise (NotImplementedError
           ("The computation of the metric matrix" ++ " is not implemented.")).

(** [RiemannianMetric(dim, signature, default_point_type)] itself, with no
    override; [log] is what the connection supplies. *)
Definition init (dim : nat) (signature : option (list nat))
           (default_point_type : option string)
           (log : ndarray R -> ndarray R -> M (ndarray R)) : metric_object :=
  mk_metric dim signature
            (match default_point_type with Some t => t | None => "vector" end)
            metric_matrix log.

Definition inner_product_inverse_matrix (self : metric_object)
           (base_point : option (ndarray R)) : M (ndarray R) :=
  metric_matrix <- self_metric_matrix self base_point ;;
  cometric_matrix <- linalg_inv metric_matrix ;;
  Ok cometric_matrix.

Definition inner_product_derivative_matrix (self : metric_object)
           (base_point : ndarray R) : M (ndarray R) :=
  let metric_derivative :=
    jacobian (fun x => self_metric_matrix self (Some x)) in
  metric_derivative base_point.

Definition christoffels (self : metric_object) (base_point : ndarray R)
  : M (ndarray R) :=
  cometric_mat_at_point <- inner_product_inverse_matrix self (Some base_point) ;;
  metric_derivative_at_point <- inner_product_derivative_matrix self base_point ;;
  term_1 <- einsum "...im,...mkl->...ikl"
                   cometric_mat_at_point metric_derivative_at_point ;;
  term_2 <- einsum "...im,...mlk->...ilk"
                   cometric_mat_at_point metric_derivative_at_point ;;
  term_3' <- einsum "...im,...klm->...ikl"
                    cometric_mat_at_point metric_derivative_at_point ;;
  let term_3 := map_array neg term_3' in
  t12 <- broadcast2 add term_1 term_2 ;;
  t123 <- broadcast2 add t12 term_3 ;;
  Ok (map_array (mul half) t123).

(** The body of [inner_product], on arguments the decorator has
    normalized. *)
Definition inner_product_body (self : metric_object)
           (tangent_vec_a tangent_vec_b : ndarray R)
           (base_point : option (ndarray R)) : M (ndarray R) :=
  inner_prod_mat <- self_metric_matrix self base_point ;;
  let inner_prod_mat := to_ndarray inner_prod_mat 3 0 in
  aux <- einsum "...j,...jk->...k" tangent_vec_a inner_prod_mat ;;
  inner_prod <- einsum "...k,...k->..." aux tangent_vec_b ;;
  let inner_prod := to_ndarray inner_prod 1 0 in
  let inner_prod := to_ndarray inner_prod 2 1 in
  Ok inner_prod.

(** The shapes of the vector arguments as the caller passed them; an absent
    base point has none. *)
Definition vector_argument_shapes (tangent_vec_a tangent_vec_b : ndarray R)
           (base_point : option (ndarray R)) : list (list nat) :=
  shape tangent_vec_a :: shape tangent_vec_b
  :: match base_point with Some p => [shape p] | None => [] end.

(** [@geomstats.vectorization.decorator(['else', 'vector', 'vector',
    'vector'])]: [self] passes through, the three others are vectors; the
    result of the body is adapted to the shapes they came with. *)
Definition inner_product (self : metric_object)
           (tangent_vec_a tangent_vec_b : ndarray R)
           (base_point : option (ndarray R)) : M (ndarray R) :=
  result <- inner_product_body self
              (vectorize_vector tangent_vec_a) (vectorize_vector tangent_vec_b)
              (option_map vectorize_vector base_point) ;;
  Ok (adapt_result
        (vector_argument_shapes tangent_vec_a tangent_vec_b base_point) result).

Definition squared_norm (self : metric_object) (vector : ndarray R)
           (base_point : option (ndarray R)) : M (ndarray R) :=
  sq_norm <- inner_product self vector vector base_point ;;
  Ok sq_norm.

Definition norm (self : metric_object) (vector : ndarray R)
           (base_point : option (ndarray R)) : M (ndarray R) :=
  sq_norm <- squared_norm self vector base_point ;;
  Ok (gs_sqrt sq_norm).

Definition squared_dist (self : metric_object) (point_a point_b : ndarray R)
  : M (ndarray R) :=
  log <- self_log self point_b point_a ;;
  sq_dist <- squared_norm self log (Some point_a) ;;
  Ok sq_dist.

Definition dist (self : metric_object) (point_a point_b : ndarray R)
  : M (ndarray R) :=
  sq_dist <- squared_dist self point_a point_b ;;
  Ok (gs_sqrt sq_dist).

(** The values appended to [pairwise_dist], in order. *)
Definition pairwise_dist_values (self : metric_object) (point : ndarray R)
  : M (list (ndarray R)) :=
  xs <- iter_array point ;;
  per_x <- mapM (fun ix =>
             tail <- slice_from point (fst ix) ;;
             ys <- iter_array tail ;;
             mapM (fun y => dist self (snd ix) y) ys)
           (enumerate xs) ;;
  Ok (concat per_x).

(** The matrix is returned as its rows of entries; an entry is a distance
    as [dist] returns it. *)
Definition dist_pairwise (self : metric_object) (point : ndarray R)
  : M (list (list (ndarray R))) :=
  pairwise_dist <- pairwise_dist_values self point ;;
  from_vector pairwise_dist.

Definition diameter (self : metric_object) (points : ndarray R)
  : M (ndarray R) :=
  let diameter := Ok (scalar zero) in
  n_points <- shape0 points ;;
  fold_left (fun state i =>
               diameter <- state ;;
               x <- row_of points i ;;
               ys <- rows_from points (i + 1) ;;
               dist_to_neighbors <- dist self x ys ;;
               dist_to_farthest_neighbor <- amax dist_to_neighbors ;;
               maximum diameter dist_to_farthest_neighbor)
            (seq 0 (n_points - 1)) diameter.

Definition closest_neighbor_index (self : metric_object)
           (point neighbors : ndarray R) : M nat :=
  dist <- dist self point neighbors ;;
  argmin dist.

Definition orthonormal_basis (self : metric_object) (basis : ndarray R)
           (base_point : option (ndarray R)) : M (ndarray R) :=
  norms <- squared_norm self basis base_point ;;
  einsum "i, ikl->ikl" (map_array (fun x => div one (sqrt x)) norms) basis.

End Methods.
End RiemannianMetric.

Section Loss.
Context {B : Backend}.

Definition loss (y_pred y_true : ndarray R) (metric : metric_object)
  : M (ndarray R) :=
  sq_dist <- RiemannianMetric.squared_dist metric y_pred y_true ;;
  Ok sq_dist.

Definition grad (y_pred y_true : ndarray R) (metric : metric_object)
  : M (ndarray R) :=
  tangent_vec <- self_log metric y_true y_pred ;;
  let grad_vec := map_array (mul (neg two)) tangent_vec in
  inner_prod_mat <- self_metric_matrix metric (Some y_pred) ;;
  let is_vectorized := ndim inner_prod_mat =? 3 in
  let axes := if is_vectorized then [0; 2; 1] else [1; 0] in
  transposed <- transpose inner_prod_mat axes ;;
  loss_grad <- einsum "...i,...ij->...i" grad_vec transposed ;;
  Ok loss_grad.

End Loss.

Module RiemannianCometric.
Section Methods.
Context {B : Backend}.

(** The unimplemented hook of the cometric class. *)
Definition cometric_matrix (base_point : option (ndarray R)) : M (ndarray R) :=
  Raise (NotImplementedError
           ("The computation of the cometric matrix" ++ " is not implemented.")).

Definition init (dim : nat) (signature : option (list nat))
           (default_point_type : option string)
           (log : ndarray R -> ndarray R -> M (ndarray R)) : cometric_object :=
  mk_cometric dim signature
              (match default_point_type with Some t => t | None => "vector" end)
              cometric_matrix log.

(** The override of [metric_matrix]. *)
Definition metric_matrix (self : cometric_object)
           (base_point : option (ndarray R)) : M (ndarray R) :=
  cometric_matrix <- self_cometric_matrix self base_point ;;
  metric_matrix <- linalg_inv cometric_matrix ;;
  Ok metric_matrix.

(** A cometric object seen as the metric object it also is: the inherited
    operations run with the override above. *)
Definition as_metric (self : cometric_object) : metric_object :=
  mk_metric (co_dim self) (co_signature self) (co_default_point_type self)
            (metric_matrix self) (co_log self).

Definition inner_coproduct (self : cometric_object)
           (covector_1 covector_2 base_point : ndarray R) : M (ndarray R) :=
  cometric <- self_cometric_matrix self (Some base_point) ;;
  vector_2 <- einsum "...ij,...j->...i" cometric covector_2 ;;
  inner_coproduct <- einsum "...i,...i->..." covector_1 vector_2 ;;
  Ok inner_coproduct.

Definition hamiltonian (self : cometric_object) (state : pyval R)
  : M (pyval R) :=
  ' (position, momentum) <- unpack2 state ;;
  position <- as_array position ;;
  momentum <- as_array momentum ;;
  c <- inner_coproduct self momentum momentum position ;;
  Ok (PArr (map_array (mul half) c)).

Definition Hamiltonian_equation (self : cometric_object)
           (position momentum : ndarray R) : M (pyval R) :=
  let state := PTuple [PArr position; PArr momentum] in
  r <- value_and_grad (hamiltonian self) state ;;
  ' (H_q, H_p) <- unpack2 r ;;
  minus_H_q <- py_neg H_q ;;
  Ok (PTuple [H_p; minus_H_q]).

(** What [exp] does with the integrator's result: [flow, _ = ...] and
    [flow[-1]]. *)
Definition final_position (r : pyval R) : M (pyval R) :=
  ' (flow, _) <- unpack2 r ;;
  exp <- last_item flow ;;
  Ok exp.

Definition exp (self : cometric_object) (cotangent_vec base_point : ndarray R)
           (n_steps : option nat) (step : option string)
           (point_type : option string) : M (pyval R) :=
  let n_steps := match n_steps with Some n => n | None => N_STEPS end in
  let step := match step with Some s => s | None => "euler" end in
  let initial_state := PTuple [PArr base_point; PArr cotangent_vec] in
  r <- integrate (Hamiltonian_equation self) initial_state n_steps step ;;
  final_position r.

End Methods.
End RiemannianCometric.

(** ** The manifold test case *)

(** The fixture under test: the declared point shape and the membership
    predicate of the space. *)
Record space_fixture {B : Backend} : Type := mk_space {
  space_shape : list nat;
  belongs : ndarray R -> M (ndarray bool)
}.

Arguments mk_space {B} space_shape belongs.

(** The fixture with the two further members the shape check reads: the
    number of axes of one point and the sampler.  [random_point n] stands for
    the one draw a check makes. *)
Record sampled_fixture {B : Backend} : Type := mk_sampled {
  sampled_space : space_fixture;
  point_ndim : nat;
  random_point : nat -> M (ndarray R)
}.

Arguments mk_sampled {B} sampled_space point_ndim random_point.

Module ManifoldTestCase.
Section Checks.
Context {B : Backend}.

(** Modelled from the spec: the exact array-equality assertion of the test
    support, which is not part of the sources at hand. *)
Definition assertAllEqual (a b : ndarray bool) : M unit :=
  if array_eqb Bool.eqb a b then Ok tt
  else Raise (AssertionError "arrays are not equal").

Definition test_belongs (space : space_fixture) (point : ndarray R)
           (expected : ndarray bool) (atol : R) : M unit :=
  res <- belongs space point ;;
  assertAllEqual res expected.

(** [shape = list(self.space.shape); shape[0] += 1]. *)
Definition incr_first (shape : list nat) : M (list nat) :=
  match shape with
  | [] => Raise (IndexError "list index out of range")
  | n :: rest => Ok ((n + 1) :: rest)
  end.

(** The arguments [test_not_belongs] hands to [test_belongs]. *)
Definition not_belongs_data (space : space_fixture) (n_points : nat)
  : M (ndarray R * ndarray bool) :=
  shape <- incr_first (space_shape space) ;;
  let n_batch := if n_points =? 0 then [] else [n_points] in
  let point := ones (n_batch ++ shape) in
  let expected := zeros_bool n_points in
  Ok (point, expected).

Definition test_not_belongs (space : space_fixture) (n_points : nat) (atol : R)
  : M unit :=
  ' (point, expected) <- not_belongs_data space n_points ;;
  test_belongs space point expected atol.

(** Modelled from the spec: the exact equality assertions of the test
    support, on integers and on shapes. *)
Definition assertEqual (a b : nat) : M unit :=
  if a =? b then Ok tt else Raise (AssertionError "values are not equal").

Definition assertShapeEqual (a b : list nat) : M unit :=
  if list_eqb Nat.eqb a b then Ok tt
  else Raise (AssertionError "shapes are not equal").

(** [t[-k:]]: the last [k] entries, and the whole of [t] when [k] is zero. *)
Definition last_entries {A} (k : nat) (t : list A) : list A :=
  if k =? 0 then t else skipn (length t - k) t.

Definition test_random_point_shape (space : sampled_fixture) (n_points : nat)
  : M unit :=
  point <- random_point space n_points ;;
  let expected_ndim := point_ndim space + (if 1 <? n_points then 1 else 0) in
  _ <- assertEqual (ndim point) expected_ndim ;;
  _ <- assertShapeEqual (last_entries (point_ndim space) (shape point))
                        (space_shape (sampled_space space)) ;;
  if 1 <? n_points then
    first <- shape0 point ;;
    assertEqual first n_points
  else Ok tt.

End Checks.
End ManifoldTestCase.

(** ** A rational backend and concrete objects

    Rationals in lowest terms stand in for the floating-point scalars where a
    statement is evaluated on concrete data.  The square root is exact on
    squares of rationals, the inverse covers matrices of order one and two,
    and the derivatives are central differences of step one, which are exact
    on polynomials of degree at most two. *)

Module QExample.

Definition qadd (x y : Q) : Q := Qred (x + y).
Definition qsub (x y : Q) : Q := Qred (x - y).
Definition qmul (x y : Q) : Q := Qred (x * y).
Definition qdiv (x y : Q) : Q := Qred (x / y).
Definition qneg (x : Q) : Q := Qred (- x).
Definition qsqrt (x : Q) : Q :=
  Qred (Z.sqrt (Qnum x * Zpos (Qden x)) # Qden x).
Definition qmax (x y : Q) : Q := if Qle_bool x y then y else x.
Definition qltb (x y : Q) : bool := negb (Qle_bool y x).

Definition q_inv_matrix (m : ndarray Q) : M (ndarray Q) :=
  match shape m, data m with
  | [1; 1], [a] =>
      if Qeq_bool a 0 then Raise (LinAlgError "Singular matrix")
      else Ok (mk_array [1; 1] [qdiv 1 a])
  | [2; 2], [a; b; c; d] =>
      let det := qsub (qmul a d) (qmul b c) in
      if Qeq_bool det 0 then Raise (LinAlgError "Singular matrix")
      else Ok (mk_array [2; 2]
                 [qdiv d det; qdiv (qneg b) det; qdiv (qneg c) det; qdiv a det])
  | _, _ => Raise (LinAlgError "matrices of order one and two only")
  end.

Definition stack {A} (l : list (ndarray A)) : ndarray A :=
  mk_array (length l :: match l with [] => [] | x :: _ => shape x end)
           (concat (map (@data A) l)).

Definition q_inv (m : ndarray Q) : M (ndarray Q) :=
  match shape m with
  | [_; _] => q_inv_matrix m
  | [_; _; _] =>
      ms <- iter_array m ;; invs <- mapM q_inv_matrix ms ;; Ok (stack invs)
  | _ => Raise (LinAlgError "a stack of square matrices is expected")
  end.

(** [a] with [h] added to the entry of flat position [k]. *)
Definition perturb (a : ndarray Q) (k : nat) (h : Q) : ndarray Q :=
  mk_array (shape a)
           (map (fun ix => if fst ix =? k then qadd (snd ix) h else snd ix)
                (enumerate (data a))).

Definition central (p m : Q) : Q := qdiv (qsub p m) 2.

(** The Jacobian has the shape of the value followed by the shape of the
    argument. *)
Definition q_jacobian (f : ndarray Q -> M (ndarray Q)) (x : ndarray Q)
  : M (ndarray Q) :=
  fx <- f x ;;
  cols <- mapM (fun k =>
            fp <- f (perturb x k 1) ;;
            fm <- f (perturb x k (-1)) ;;
            Ok (map (fun pm => central (fst pm) (snd pm))
                    (combine (data fp) (data fm))))
          (seq 0 (length (data x))) ;;
  Ok (build (shape fx ++ shape x) (fun idx =>
        let o := firstn (ndim fx) idx in
        let i := skipn (ndim fx) idx in
        nth (ravel (shape fx) o) (nth (ravel (shape x) i) cols []) 0%Q)).

Definition scalar_of (v : pyval Q) : M Q :=
  match v with
  | PArr a => match data a with
              | [x] => Ok x
              | _ => Raise (TypeError "a scalar value is expected")
              end
  | PTuple _ => Raise (TypeError "a scalar value is expected")
  end.

Definition q_grad_array (f : ndarray Q -> M (pyval Q)) (a : ndarray Q)
  : M (ndarray Q) :=
  ds <- mapM (fun k =>
          p <- bind (f (perturb a k 1)) scalar_of ;;
          m <- bind (f (perturb a k (-1))) scalar_of ;;
          Ok (central p m))
        (seq 0 (length (data a))) ;;
  Ok (mk_array (shape a) ds).

Definition replace_nth {A} (j : nat) (x : A) (l : list A) : list A :=
  firstn j l ++ x :: skipn (S j) l.

(** The gradient with respect to an array, or to each array of a tuple. *)
Definition q_grad (f : pyval Q -> M (pyval Q)) (v : pyval Q) : M (pyval Q) :=
  match v with
  | PArr a => g <- q_grad_array (fun a' => f (PArr a')) a ;; Ok (PArr g)
  | PTuple items =>
      gs <- mapM (fun jx =>
              match snd jx with
              | PArr a =>
                  g <- q_grad_array
                         (fun a' => f (PTuple (replace_nth (fst jx) (PArr a') items)))
                         a ;;
                  Ok (PArr g)
              | PTuple _ => Raise (TypeError "a tuple of arrays is expected")
              end)
            (enumerate items) ;;
      Ok (PTuple gs)
  end.

Definition axpy (h : Q) (v x : ndarray Q) : ndarray Q :=
  mk_array (shape x)
           (map (fun xv => qadd (fst xv) (qmul h (snd xv)))
                (combine (data x) (data v))).

Definition force_at (force : ndarray Q -> ndarray Q -> M (pyval Q))
           (q p : ndarray Q) : M (ndarray Q * ndarray Q) :=
  f <- force q p ;;
  match f with
  | PTuple [PArr v; PArr a] => Ok (v, a)
  | _ => Raise (TypeError "the vector field must return a pair of arrays")
  end.

Definition euler_step (force : ndarray Q -> ndarray Q -> M (pyval Q))
           (dt : Q) (q p : ndarray Q) : M (ndarray Q * ndarray Q) :=
  ' (v, a) <- force_at force q p ;;
  Ok (axpy dt v q, axpy dt a p).

Definition rk4_step (force : ndarray Q -> ndarray Q -> M (pyval Q))
           (dt : Q) (q p : ndarray Q) : M (ndarray Q * ndarray Q) :=
  let h2 := qdiv dt 2 in
  ' (v1, a1) <- force_at force q p ;;
  ' (v2, a2) <- force_at force (axpy h2 v1 q) (axpy h2 a1 p) ;;
  ' (v3, a3) <- force_at force (axpy h2 v2 q) (axpy h2 a2 p) ;;
  ' (v4, a4) <- force_at force (axpy dt v3 q) (axpy dt a3 p) ;;
  let h6 := qdiv dt 6 in
  let h3 := qdiv dt 3 in
  Ok (axpy h6 v4 (axpy h3 v3 (axpy h3 v2 (axpy h6 v1 q))),
      axpy h6 a4 (axpy h3 a3 (axpy h3 a2 (axpy h6 a1 p)))).

Fixpoint flow_from (one_step : ndarray Q -> ndarray Q -> M (ndarray Q * ndarray Q))
         (n : nat) (q p : ndarray Q) : M (list (ndarray Q) * list (ndarray Q)) :=
  match n with
  | 0 => Ok ([q], [p])
  | S n' =>
      ' (q', p') <- one_step q p ;;
      ' (qs, ps) <- flow_from one_step n' q' p' ;;
      Ok (q :: qs, p :: ps)
  end.

(** Modelled from the spec: [geomstats.integrator.integrate], which is not
    part of the sources at hand.  Fixed-step integration over the unit
    interval with the scheme named ["euler"] (explicit, first order) or
    ["rk4"] (Runge-Kutta, fourth order): the step is the length of the
    interval divided by the number of steps, every step evaluates the vector
    field at the current state and moves the position along its first
    component and the momentum along its second, and the result is the pair
    of the sequence of positions and the sequence of momenta. *)
Definition q_integrate (force : ndarray Q -> ndarray Q -> M (pyval Q))
           (initial_state : pyval Q) (n_steps : nat) (step : string)
  : M (pyval Q) :=
  match initial_state with
  | PTuple [PArr q; PArr p] =>
      scheme <-
        (if String.eqb step "euler" then Ok euler_step
         else if String.eqb step "rk4" then Ok rk4_step
         else Raise (ValueError "step must be one of euler, rk4")) ;;
      if n_steps =? 0 then Raise (ZeroDivisionError "float division by zero")
      else
        let dt := qdiv 1 (Z.of_nat n_steps # 1) in
        ' (qs, ps) <- flow_from (scheme force dt) n_steps q p ;;
        Ok (PTuple [PTuple (map PArr qs); PTuple (map PArr ps)])
  | _ => Raise (TypeError "the initial state must be a pair of arrays")
  end.

#[export] Instance QBackend : Backend := {|
  R := Q;
  zero := 0%Q;
  one := 1%Q;
  half := (1 # 2)%Q;
  two := 2%Q;
  add := qadd;
  mul := qmul;
  div := qdiv;
  neg := qneg;
  sqrt := qsqrt;
  max := qmax;
  ltb := qltb;
  linalg_inv := q_inv;
  jacobian := q_jacobian;
  autograd_grad := q_grad;
  integrate := q_integrate
|}.

Definition vec (l : list Q) : ndarray Q := mk_array [length l] l.

Definition eye (d : nat) : ndarray Q :=
  build [d; d] (fun idx =>
    match idx with
    | [i; j] => if i =? j then 1%Q else 0%Q
    | _ => 0%Q
    end).

(** The logarithm of a flat space: [point - base_point]. *)
Definition flat_log (point base_point : ndarray Q) : M (ndarray Q) :=
  broadcast2 qsub point base_point.

(** The Euclidean metric of dimension [d]. *)
Definition euclidean (d : nat) : metric_object :=
  mk_metric d None "vector" (fun _ => Ok (eye d)) flat_log.

(** A metric on the plane whose second diagonal entry varies with the
    first coordinate: [diag(1, 1 + x0^2)]. *)
Definition warped_matrix (base_point : option (ndarray Q)) : M (ndarray Q) :=
  match base_point with
  | None => Raise (TypeError "a base point is required")
  | Some x =>
      let x0 := get 0%Q x [0] in
      Ok (mk_array [2; 2] [1%Q; 0%Q; 0%Q; qadd 1 (qmul x0 x0)])
  end.

Definition warped : metric_object :=
  mk_metric 2 None "vector" warped_matrix flat_log.

(** The cometric of a flat space. *)
Definition flat_cometric (d : nat) : cometric_object :=
  mk_cometric d None "vector" (fun _ => Ok (eye d)) flat_log.

(** The space of vectors of length [d]: a point belongs when its last axis
    has extent [d]; a batch gets one answer per point. *)
Definition vector_space (d : nat) : space_fixture :=
  mk_space [d] (fun point =>
    match rev (shape point) with
    | [] => Raise (IndexError "tuple index out of range")
    | point_dim :: _ =>
        let belongs := point_dim =? d in
        match shape point with
        | [n; _] => Ok (full [n] belongs)
        | _ => Ok (scalar belongs)
        end
    end).

End QExample.

(** Further objects over the rational backend. *)

Module QFixtures.

(** The base class itself on the plane: no metric matrix. *)
Definition abstract_metric : metric_object :=
  @RiemannianMetric.init QExample.QBackend 2 None None QExample.flat_log.

(** A metric whose matrix comes back behind two batch axes. *)
Definition stacked_metric : metric_object :=
  @mk_metric QExample.QBackend 2 None "vector"
            (fun _ => Ok (mk_array [1; 1; 2; 2] [1; 0; 0; 1]%Q))
            QExample.flat_log.

(** The space of scalars: a point has no axis. *)
Definition scalar_space : space_fixture :=
  @mk_space QExample.QBackend [] (fun point => Ok (full (shape point) true)).

(** Samplers that return all-ones arrays of the expected shape. *)
Definition sampled_vectors (d : nat) : sampled_fixture :=
  @mk_sampled QExample.QBackend (QExample.vector_space d) 1
             (fun n => Ok (full ((if 1 <? n then [n] else []) ++ [d]) 1%Q)).

Definition sampled_scalars : sampled_fixture :=
  @mk_sampled QExample.QBackend scalar_space 0
             (fun n => Ok (full (if 1 <? n then [n] else []) 1%Q)).

End QFixtures.

(** ** Vocabulary of the statements *)

(** The two errors of the unimplemented hooks. *)
Definition metric_matrix_error : exn :=
  NotImplementedError "The computation of the metric matrix is not implemented.".

Definition cometric_matrix_error : exn :=
  NotImplementedError "The computation of the cometric matrix is not implemented.".

(** A shape of one vector of length [d] ([n] is then one) or of a batch of
    [n] of them; likewise for square matrices of order [d]. *)
Definition vector_batch (s : list nat) (n d : nat) : Prop :=
  (s = [d] /\ n = 1) \/ s = [n; d].

Definition matrix_batch (s : list nat) (n d : nat) : Prop :=
  (s = [d; d] /\ n = 1) \/ s = [n; d; d].

(** * Properties *)

(** ** The result monad *)

Lemma bind_ret {A} (c : M A) : bind c (fun x => Ok x) = c.
Proof. destruct c; reflexivity. Qed.

Lemma mapM_ok {A C} (f : A -> M C) (g : A -> C) (l : list A) :
  (forall x, In x l -> f x = Ok (g x)) -> mapM f l = Ok (map g l).
Proof.
  induction l as [|x l IH]; intros H; simpl; [reflexivity|].
  rewrite (H x) by (left; reflexivity). simpl.
  rewrite IH by (intros y Hy; apply H; right; exact Hy). reflexivity.
Qed.

(** ** Arrays *)

Lemma length_indices (s : list nat) : length (indices s) = prod_shape s.
Proof.
  induction s as [|n s IH]; simpl; [reflexivity|].
  assert (forall k m, length (flat_map (fun i => map (cons i) (indices s)) (seq k m))
                      = m * prod_shape s) as E.
  { intros k m; revert k; induction m as [|m IHm]; intros k; simpl; [reflexivity|].
    rewrite length_app, length_map, IHm, IH. reflexivity. }
  apply E.
Qed.

Lemma ravel_lt (s idx : list nat) :
  in_bounds idx s -> ravel s idx < prod_shape s.
Proof.
  intros H; induction H as [|i n idx s Hi _ IH]; simpl; [lia|].
  change (fold_right Nat.mul 1 s) with (prod_shape s). nia.
Qed.

Lemma nth_error_blocks {A} (g : nat -> list A) (L : nat) :
  (forall k, length (g k) = L) ->
  forall m k i j, i < m -> j < L ->
    nth_error (flat_map g (seq k m)) (i * L + j) = nth_error (g (k + i)) j.
Proof.
  intros HL m; induction m as [|m IH]; intros k i j Hi Hj; [lia|].
  simpl. destruct i as [|i].
  - simpl. rewrite nth_error_app1 by (rewrite HL; exact Hj).
    now rewrite Nat.add_0_r.
  - rewrite nth_error_app2 by (rewrite HL; simpl; lia).
    rewrite HL. replace (S i * L + j - L) with (i * L + j) by (simpl; lia).
    rewrite IH by lia. f_equal. f_equal. lia.
Qed.

Lemma nth_error_indices (s idx : list nat) :
  in_bounds idx s -> nth_error (indices s) (ravel s idx) = Some idx.
Proof.
  intros H; induction H as [|i n idx s Hi Hb IH]; [reflexivity|].
  simpl. change (fold_right Nat.mul 1 s) with (prod_shape s).
  rewrite (@nth_error_blocks _ (fun i => map (cons i) (indices s)) (prod_shape s)).
  - simpl. rewrite nth_error_map, IH. reflexivity.
  - intros k. now rewrite length_map, length_indices.
  - exact Hi.
  - now apply ravel_lt.
Qed.

Lemma get_build {A} (d : A) (s : list nat) (f : list nat -> A) (idx : list nat) :
  in_bounds idx s -> get d (build s f) idx = f idx.
Proof.
  intros H. unfold get, build; simpl.
  apply nth_error_nth. rewrite nth_error_map, nth_error_indices by exact H.
  reflexivity.
Qed.

Lemma wf_build {A} (s : list nat) (f : list nat -> A) : wf_array (build s f).
Proof. unfold wf_array, build; simpl. now rewrite length_map, length_indices. Qed.

Lemma get_map_array {A B} (d : A) (d' : B) (f : A -> B) (a : ndarray A) (idx : list nat) :
  wf_array a -> in_bounds idx (shape a) ->
  get d' (map_array f a) idx = f (get d a idx).
Proof.
  intros Hwf Hb. unfold get, map_array; simpl.
  rewrite (nth_indep _ d' (f d)), map_nth; [reflexivity|].
  rewrite length_map, Hwf. now apply ravel_lt.
Qed.

Lemma list_eqb_eq {A} (eqb : A -> A -> bool) (l1 l2 : list A) :
  (forall x y, eqb x y = true <-> x = y) ->
  (list_eqb eqb l1 l2 = true <-> l1 = l2).
Proof.
  intros Heq. revert l2; induction l1 as [|x l1 IH]; intros [|y l2]; simpl;
    try (split; [discriminate | discriminate]); [tauto|].
  rewrite andb_true_iff, Heq, IH. split.
  - intros [-> ->]; reflexivity.
  - intros E; inversion E; auto.
Qed.

Lemma array_eqb_bool_eq (a b : ndarray bool) :
  array_eqb Bool.eqb a b = true <-> a = b.
Proof.
  unfold array_eqb. rewrite andb_true_iff.
  rewrite (list_eqb_eq Nat.eqb (shape a) (shape b) Nat.eqb_eq).
  rewrite (list_eqb_eq Bool.eqb (data a) (data b) Bool.eqb_true_iff).
  destruct a, b; simpl. split.
  - intros [-> ->]; reflexivity.
  - intros E; inversion E; auto.
Qed.

(** ** Squared distance *)

Section MetricProperties.
Context {B : Backend}.

(** C3: for all points [a] and [b], [squared_dist(a, b)] is
    [squared_norm(log(point=b, base_point=a), base_point=a)], as one and the
    same computation: the same value when the logarithm returns, the same
    error when it raises.  Through [squared_norm] it is the inner product of
    the logarithm with itself at [a]. *)
Theorem squared_dist_is_squared_norm_of_log
        (self : metric_object) (point_a point_b : ndarray R) :
  RiemannianMetric.squared_dist self point_a point_b
  = (log <- self_log self point_b point_a ;;
     RiemannianMetric.squared_norm self log (Some point_a))
  /\ RiemannianMetric.squared_dist self point_a point_b
     = (log <- self_log self point_b point_a ;;
        RiemannianMetric.inner_product self log log (Some point_a)).
Proof.
  unfold RiemannianMetric.squared_dist, RiemannianMetric.squared_norm.
  split; destruct (self_log self point_b point_a) as [v|e]; simpl;
    try reflexivity; now rewrite !bind_ret.
Qed.

(** ** Diameter *)

Lemma diameter_loop_empty (self : metric_object) (points : ndarray R)
      (n : nat) (rest : list nat) :
  shape points = n :: rest -> n <= 1 ->
  RiemannianMetric.diameter self points = Ok (scalar zero).
Proof.
  intros Hs Hn. unfold RiemannianMetric.diameter, shape0. rewrite Hs. simpl.
  replace (n - 1) with 0 by lia. reflexivity.
Qed.

(** C10: on a point set whose leading axis has length one, [diameter]
    returns [0.0].  The loop runs over [range(n_points - 1)], which is
    empty, so the running maximum keeps its initial value.  The result is
    the same whatever the metric object is, also one whose logarithm and
    metric matrix raise on every call: no distance is evaluated. *)
Theorem diameter_single_point
        (self : metric_object) (points : ndarray R) (rest : list nat) :
  shape points = 1 :: rest ->
  shape0 points = Ok 1
  /\ seq 0 (1 - 1) = []
  /\ RiemannianMetric.diameter self points = Ok (scalar zero)
  /\ forall other : metric_object,
       RiemannianMetric.diameter other points = Ok (scalar zero).
Proof.
  intros Hs. split; [unfold shape0; now rewrite Hs|]. split; [reflexivity|]. split.
  - now apply (diameter_loop_empty self points Hs).
  - intros other. now apply (diameter_loop_empty other points Hs).
Qed.

End MetricProperties.

Lemma diameter_single_point_witness :
  shape (mk_array [1; 2] [0%Q; 0%Q]) = [1; 2]
  /\ RiemannianMetric.diameter (QExample.euclidean 2) (mk_array [1; 2] [0%Q; 0%Q])
     = Ok (scalar 0%Q).
Proof.
  split; [reflexivity|].
  apply (@diameter_single_point QExample.QBackend (QExample.euclidean 2)
           (mk_array [1; 2] [0%Q; 0%Q]) [2]).
  reflexivity.
Defined.

(** ** The unimplemented hooks *)

Section AbstractPrimitives.
Context {B : Backend}.

(** C9: on the base [RiemannianMetric], [metric_matrix] raises
    [NotImplementedError] with a message naming the metric matrix, and on
    the base [RiemannianCometric], [cometric_matrix] raises it with a
    message naming the cometric matrix.  Nothing catches the error and
    nothing is computed in its place: every operation that reaches the hook
    ends with that very error, whatever its arguments.  The operations that
    take the logarithm first end with it as soon as the logarithm has
    returned. *)
Theorem abstract_primitives_raise_NotImplemented
        (d : nat) (sig : option (list nat)) (pt : option string)
        (log : ndarray R -> ndarray R -> M (ndarray R)) :
  let self := RiemannianMetric.init d sig pt log in
  let coself := RiemannianCometric.init d sig pt log in
  (forall bp, RiemannianMetric.metric_matrix bp = Raise metric_matrix_error)
  /\ (forall bp, self_metric_matrix self bp = Raise metric_matrix_error)
  /\ (forall bp, RiemannianMetric.inner_product_inverse_matrix self bp
                 = Raise metric_matrix_error)
  /\ (forall bp, RiemannianMetric.christoffels self bp = Raise metric_matrix_error)
  /\ (forall a b bp, RiemannianMetric.inner_product self a b bp
                     = Raise metric_matrix_error)
  /\ (forall v bp, RiemannianMetric.squared_norm self v bp
                   = Raise metric_matrix_error)
  /\ (forall v bp, RiemannianMetric.norm self v bp = Raise metric_matrix_error)
  /\ (forall basis bp, RiemannianMetric.orthonormal_basis self basis bp
                       = Raise metric_matrix_error)
  /\ (forall a b, RiemannianMetric.squared_dist self a b
                  = (_ <- log b a ;; Raise metric_matrix_error))
  /\ (forall a b, RiemannianMetric.dist self a b
                  = (_ <- log b a ;; Raise metric_matrix_error))
  /\ (forall a b, RiemannianMetric.closest_neighbor_index self a b
                  = (_ <- log b a ;; Raise metric_matrix_error))
  /\ (forall y_pred y_true, loss y_pred y_true self
                            = (_ <- log y_true y_pred ;; Raise metric_matrix_error))
  /\ (forall y_pred y_true, grad y_pred y_true self
                            = (_ <- log y_true y_pred ;; Raise metric_matrix_error))
  /\ (forall bp, RiemannianCometric.cometric_matrix bp = Raise cometric_matrix_error)
  /\ (forall bp, self_cometric_matrix coself bp = Raise cometric_matrix_error)
  /\ (forall bp, RiemannianCometric.metric_matrix coself bp
                 = Raise cometric_matrix_error)
  /\ (forall c1 c2 bp, RiemannianCometric.inner_coproduct coself c1 c2 bp
                       = Raise cometric_matrix_error)
  /\ (forall q p, RiemannianCometric.hamiltonian coself (PTuple [PArr q; PArr p])
                  = Raise cometric_matrix_error)
  /\ (forall q p, RiemannianCometric.Hamiltonian_equation coself q p
                  = Raise cometric_matrix_error)
  /\ (forall a b bp,
        RiemannianMetric.inner_product (RiemannianCometric.as_metric coself) a b bp
        = Raise cometric_matrix_error)
  /\ (forall bp,
        RiemannianMetric.christoffels (RiemannianCometric.as_metric coself) bp
        = Raise cometric_matrix_error).
Proof.
  cbv zeta.
  repeat match goal with |- _ /\ _ => split end; intros;
    try reflexivity;
    unfold RiemannianMetric.closest_neighbor_index, loss, grad,
      RiemannianMetric.dist, RiemannianMetric.squared_dist; simpl;
    match goal with
    | |- context [log ?x ?y] => destruct (log x y); reflexivity
    end.
Qed.

End AbstractPrimitives.

(** ** The check that malformed points do not belong *)

Section NotBelongs.
Context {B : Backend}.

Lemma repeat_all {A} (x : A) (n : nat) : Forall (eq x) (repeat x n).
Proof. induction n; simpl; constructor; auto. Qed.

Lemma test_belongs_passes (space : space_fixture) (point : ndarray R)
      (expected : ndarray bool) (atol : R) :
  ManifoldTestCase.test_belongs space point expected atol = Ok tt
  <-> belongs space point = Ok expected.
Proof.
  unfold ManifoldTestCase.test_belongs, ManifoldTestCase.assertAllEqual.
  destruct (belongs space point) as [res|e]; simpl.
  - destruct (array_eqb Bool.eqb res expected) eqn:E.
    + apply array_eqb_bool_eq in E. subst. tauto.
    + split; [discriminate|]. intros H; inversion H; subst.
      assert (array_eqb Bool.eqb expected expected = true) as E'
          by (apply array_eqb_bool_eq; reflexivity).
      congruence.
  - split; discriminate.
Qed.

(** C7, as the code has it: for a declared point shape [s0 :: rest],
    [test_not_belongs] builds one all-ones array whose shape is the declared
    shape with its first extent raised by one, behind a batch axis of
    length [n_points] when [n_points] is not zero.  The array has no axis
    beyond the batch axis and the declared ones.  The expected answer is
    [n_points] times false, and the check passes exactly when the
    membership predicate returns that answer. *)
Theorem test_not_belongs_first_extent_raised
        (space : space_fixture) (n_points : nat) (atol : R)
        (s0 : nat) (rest : list nat) :
  space_shape space = s0 :: rest ->
  let n_batch := if n_points =? 0 then [] else [n_points] in
  let point := ones (n_batch ++ (s0 + 1) :: rest) in
  let expected := zeros_bool n_points in
  ManifoldTestCase.not_belongs_data space n_points = Ok (point, expected)
  /\ shape point = n_batch ++ (s0 + 1) :: rest
  /\ ndim point = length n_batch + length (space_shape space)
  /\ Forall (eq one) (data point)
  /\ shape expected = [n_points]
  /\ Forall (eq false) (data expected)
  /\ ManifoldTestCase.test_not_belongs space n_points atol
     = ManifoldTestCase.test_belongs space point expected atol
  /\ (ManifoldTestCase.test_not_belongs space n_points atol = Ok tt
      <-> belongs space point = Ok expected).
Proof.
  intros Hs n_batch point expected.
  assert (ManifoldTestCase.not_belongs_data space n_points = Ok (point, expected)) as E.
  { unfold ManifoldTestCase.not_belongs_data. rewrite Hs. reflexivity. }
  assert (ManifoldTestCase.test_not_belongs space n_points atol
          = ManifoldTestCase.test_belongs space point expected atol) as E'.
  { unfold ManifoldTestCase.test_not_belongs. rewrite E. reflexivity. }
  repeat split; try exact E; try exact E'.
  - unfold ndim, point, ones, full; simpl. rewrite Hs, length_app. reflexivity.
  - apply repeat_all.
  - apply repeat_all.
  - rewrite E'. apply test_belongs_passes.
  - rewrite E'. apply test_belongs_passes.
Qed.

End NotBelongs.

Lemma test_not_belongs_first_extent_raised_witness :
  ManifoldTestCase.not_belongs_data (QExample.vector_space 3) 2
  = Ok (mk_array [2; 4] (repeat 1%Q 8), mk_array [2] [false; false])
  /\ ManifoldTestCase.test_not_belongs (QExample.vector_space 3) 2 0%Q = Ok tt.
Proof.
  pose proof (@test_not_belongs_first_extent_raised QExample.QBackend
                (QExample.vector_space 3) 2 0%Q 3 [] eq_refl) as H.
  cbv zeta in H.
  destruct H as (Hd & _ & _ & _ & _ & _ & _ & Hp).
  split; [exact Hd|]. apply Hp. reflexivity.
Defined.

(** C7, as the claim words it, fails: for the space of vectors of length
    three and two points, the array handed to the membership predicate has
    shape [(2, 4)]: two axes, not three, and no shape [(2, 3, k)]. *)
Lemma test_not_belongs_no_extra_trailing_axis :
  exists point expected,
    ManifoldTestCase.not_belongs_data (QExample.vector_space 3) 2
    = Ok (point, expected)
    /\ shape point = [2; 4]
    /\ ~ (exists k, shape point = [2] ++ space_shape (QExample.vector_space 3) ++ [k]).
Proof.
  eexists; eexists. split; [reflexivity|]. split; [reflexivity|].
  intros [k Hk]. discriminate Hk.
Qed.

(** ** Hamilton's equations and the exponential map *)

Section Hamiltonian.
Context {B : Backend}.

(** What [Hamiltonian_equation] returns when the Hamiltonian has the value
    [h] and the gradient [g] at the state: the gradient as a whole comes
    first, the negated value second. *)
Lemma Hamiltonian_equation_returns (self : cometric_object)
      (position momentum h : ndarray R) (g : pyval R) :
  RiemannianCometric.hamiltonian self (PTuple [PArr position; PArr momentum])
  = Ok (PArr h) ->
  autograd_grad (RiemannianCometric.hamiltonian self)
                (PTuple [PArr position; PArr momentum]) = Ok g ->
  RiemannianCometric.Hamiltonian_equation self position momentum
  = Ok (PTuple [g; PArr (map_array neg h)]).
Proof.
  intros Hh Hg. unfold RiemannianCometric.Hamiltonian_equation, value_and_grad.
  rewrite Hh; simpl. rewrite Hg; simpl. reflexivity.
Qed.

End Hamiltonian.

(** C1 on the flat cometric of dimension one, at position [0] and momentum
    [3]: the Hamiltonian is [p^2 / 2], its value is [9/2] and its gradient is
    the pair [(0, 3)].  [Hamiltonian_equation] returns the whole gradient pair
    and the negated value [-9/2], not the pair [(3, -0)] of the momentum
    derivative and the negated position derivative. *)
Theorem Hamiltonian_equation_flat_returns_gradient_and_negated_value :
  let H := RiemannianCometric.hamiltonian (QExample.flat_cometric 1) in
  let state := PTuple [PArr (QExample.vec [0%Q]); PArr (QExample.vec [3%Q])] in
  H state = Ok (PArr (scalar (9 # 2)%Q))
  /\ autograd_grad H state
     = Ok (PTuple [PArr (QExample.vec [0%Q]); PArr (QExample.vec [3%Q])])
  /\ RiemannianCometric.Hamiltonian_equation (QExample.flat_cometric 1)
       (QExample.vec [0%Q]) (QExample.vec [3%Q])
     = Ok (PTuple [PTuple [PArr (QExample.vec [0%Q]); PArr (QExample.vec [3%Q])];
                   PArr (scalar (- 9 # 2)%Q)])
  /\ RiemannianCometric.Hamiltonian_equation (QExample.flat_cometric 1)
       (QExample.vec [0%Q]) (QExample.vec [3%Q])
     <> Ok (PTuple [PArr (QExample.vec [3%Q]);
                    PArr (map_array QExample.qneg (QExample.vec [0%Q]))]).
Proof.
  cbv zeta. split; [reflexivity|]. split; [reflexivity|]. split; [reflexivity|].
  intros E. vm_compute in E. discriminate E.
Qed.

(** C5 on the flat cometric of dimension one, from the base point [0] with
    the cotangent vector [3]: [exp] hands [Hamiltonian_equation] and the
    state [(base_point, cotangent_vec)] to the integrator, which has to move
    the position along the first component of the field.  That component is
    the gradient pair, not an array, so the first step fails and [exp] raises
    [TypeError] instead of returning the position of the final state: with
    the default ten steps of the scheme ["euler"], with the scheme ["rk4"],
    and with any positive number of steps. *)
Theorem exp_flat_raises_at_the_first_step :
  let self := QExample.flat_cometric 1 in
  let base_point := QExample.vec [0%Q] in
  let cotangent_vec := QExample.vec [3%Q] in
  let refused := Raise (TypeError "the vector field must return a pair of arrays") in
  RiemannianCometric.Hamiltonian_equation self base_point cotangent_vec
  = Ok (PTuple [PTuple [PArr (QExample.vec [0%Q]); PArr (QExample.vec [3%Q])];
                PArr (scalar (- 9 # 2)%Q)])
  /\ RiemannianCometric.exp self cotangent_vec base_point None None None = refused
  /\ RiemannianCometric.exp self cotangent_vec base_point (Some 10) (Some "euler") None
     = refused
  /\ RiemannianCometric.exp self cotangent_vec base_point (Some 10) (Some "rk4") None
     = refused
  /\ (forall n,
        RiemannianCometric.exp self cotangent_vec base_point
                               (Some (S n)) (Some "euler") None = refused)
  /\ (forall n,
        RiemannianCometric.exp self cotangent_vec base_point
                               (Some (S n)) (Some "rk4") None = refused).
Proof.
  cbv zeta. repeat split; try reflexivity; intros n; reflexivity.
Qed.

(** ** Pairwise distances *)

Lemma map_seq_shift {A} (f : nat -> A) (i m : nat) :
  map (fun j => f (i + j)) (seq 0 m) = map f (seq i m).
Proof.
  revert i; induction m as [|m IH]; intros i; simpl; [reflexivity|].
  rewrite Nat.add_0_r. f_equal.
  rewrite <- seq_shift, map_map.
  rewrite <- (IH (S i)). apply map_ext. intros j. f_equal. lia.
Qed.

Lemma enumerate_map_seq {A} (f : nat -> A) (n : nat) :
  enumerate (map f (seq 0 n)) = map (fun i => (i, f i)) (seq 0 n).
Proof.
  unfold enumerate. rewrite length_map, length_seq.
  generalize 0 as a. induction n as [|n IH]; intros a; simpl; [reflexivity|].
  now rewrite IH.
Qed.

Lemma subarray_skipn {A} (s : list nat) (buf : list A) (i j : nat) :
  subarray s (skipn (i * prod_shape s) buf) j = subarray s buf (i + j).
Proof.
  unfold subarray. rewrite skipn_skipn. do 3 f_equal. lia.
Qed.

Lemma twice_row_offset (n i : nat) :
  i <= n -> 2 * row_offset n i + i * i = i * (2 * n + 1).
Proof.
  induction i as [|i IH]; intros Hi; simpl; [reflexivity|].
  specialize (IH ltac:(lia)). nia.
Qed.

Lemma length_concat_rows {A} (g : nat -> list A) (n i : nat) :
  (forall k, k < n -> length (g k) = n - k) -> i <= n ->
  length (concat (map g (seq 0 i))) = row_offset n i.
Proof.
  intros Hg. induction i as [|i IH]; intros Hi; [reflexivity|].
  rewrite seq_S, map_app, concat_app, length_app, IH by lia. simpl.
  rewrite app_nil_r, Hg by lia. reflexivity.
Qed.

Lemma nth_error_concat_rows {A} (g : nat -> list A) (n i c : nat) :
  (forall k, k < n -> length (g k) = n - k) -> i < n -> c < n - i ->
  nth_error (concat (map g (seq 0 n))) (row_offset n i + c) = nth_error (g i) c.
Proof.
  intros Hg Hi Hc.
  replace n with (i + (n - i)) at 1 by lia.
  rewrite seq_app, map_app, concat_app. simpl.
  rewrite nth_error_app2; rewrite (length_concat_rows g Hg) by lia; [|lia].
  replace (row_offset n i + c - row_offset n i) with c by lia.
  destruct (n - i) as [|m] eqn:E; [lia|]. simpl.
  apply nth_error_app1. rewrite Hg by lia. lia.
Qed.

Lemma mat_dim_of_triangular (n N : nat) :
  2 * N = n * (n + 1) -> mat_dim_of N = n /\ n * (n + 1) / 2 = N.
Proof.
  intros H. unfold mat_dim_of.
  replace (8 * N + 1) with ((2 * n + 1) * (2 * n + 1)) by nia.
  rewrite Nat.sqrt_square. split.
  - replace (2 * n + 1 - 1) with (n * 2) by lia. apply Nat.div_mul. lia.
  - rewrite <- H. rewrite Nat.mul_comm. apply Nat.div_mul. lia.
Qed.

(** [from_vector] on the rows of an upper triangle, laid end to end. *)
Lemma from_vector_rows {A} (f : nat -> nat -> A) (n : nat) :
  from_vector (concat (map (fun i => map (f i) (seq i (n - i))) (seq 0 n)))
  = Ok (map (fun i => map (fun j => f (Nat.min i j) (Nat.max i j)) (seq 0 n))
            (seq 0 n)).
Proof.
  set (g := fun i => map (f i) (seq i (n - i))).
  assert (forall k, k < n -> length (g k) = n - k) as Hg
      by (intros k _; unfold g; now rewrite length_map, length_seq).
  assert (length (concat (map g (seq 0 n))) = row_offset n n) as Hlen
      by (apply length_concat_rows; [exact Hg | lia]).
  pose proof (@twice_row_offset n n (le_n n)) as Htw.
  destruct (@mat_dim_of_triangular n (row_offset n n)) as [Hd Hh]; [nia|].
  unfold from_vector. fold g. rewrite Hlen, Hd, Hh, Nat.eqb_refl.
  apply mapM_ok. intros i Hi. apply in_seq in Hi.
  apply mapM_ok. intros j Hj. apply in_seq in Hj.
  unfold triu_index.
  rewrite (nth_error_concat_rows g Hg) by lia.
  unfold g. rewrite nth_error_map, nth_error_seq.
  destruct (Nat.ltb_spec (Nat.max i j - Nat.min i j) (n - Nat.min i j)) as [_|Hge];
    [|lia].
  simpl. do 2 f_equal. lia.
Qed.

Section PairwiseDistances.
Context {B : Backend}.

Lemma pairwise_dist_values_rows (self : metric_object) (point : ndarray R)
      (n : nat) (s : list nat) (d : nat -> nat -> ndarray R) :
  shape point = n :: s ->
  (forall i j, i < n -> j < n ->
     RiemannianMetric.dist self (subarray s (data point) i)
                                (subarray s (data point) j) = Ok (d i j)) ->
  RiemannianMetric.pairwise_dist_values self point
  = Ok (concat (map (fun i => map (d i) (seq i (n - i))) (seq 0 n))).
Proof.
  intros Hs Hd. unfold RiemannianMetric.pairwise_dist_values, iter_array.
  rewrite Hs; simpl bind. rewrite enumerate_map_seq.
  rewrite (@mapM_ok _ _ _ (fun ix => map (d (fst ix)) (seq (fst ix) (n - fst ix)))).
  - simpl. rewrite map_map. reflexivity.
  - intros [i x] Hin. apply in_map_iff in Hin. destruct Hin as (i' & E & Hi).
    inversion E; subst. apply in_seq in Hi. unfold slice_from. rewrite Hs.
    simpl.
    rewrite (map_ext _ (fun j => subarray s (data point) (i + j)))
      by (intros j; apply subarray_skipn).
    rewrite map_seq_shift.
    assert (forall l, (forall j, In j l -> j < n) ->
              mapM (fun y => RiemannianMetric.dist self (subarray s (data point) i) y)
                   (map (subarray s (data point)) l)
              = Ok (map (d i) l)) as Hm.
    { induction l as [|j l IH]; intros Hl; simpl; [reflexivity|].
      rewrite Hd by (try lia; apply Hl; left; reflexivity). simpl.
      rewrite IH by (intros k Hk; apply Hl; right; exact Hk). reflexivity. }
    rewrite Hm; [reflexivity|]. intros j Hj. apply in_seq in Hj. lia.
Qed.

(** C4: for [n] points [p_0 .. p_(n-1)] on which [dist] returns, is
    symmetric and vanishes between a point and itself, [dist_pairwise]
    collects, for [i] from [0] to [n-1], the distances from [p_i] to
    [p_i .. p_(n-1)], the self-distance included: [n(n+1)/2] values in that
    order.  The embedding expands them into [n] rows of [n] entries [D] with
    [D[i][j] = dist(p_i, p_j)] for all [i] and [j], [D[i][j] = D[j][i]] and
    [D[i][i]] zero. *)
Theorem dist_pairwise_symmetric_matrix
        (self : metric_object) (point : ndarray R)
        (n : nat) (s : list nat) (d : nat -> nat -> ndarray R) :
  shape point = n :: s ->
  (forall i j, i < n -> j < n ->
     RiemannianMetric.dist self (subarray s (data point) i)
                                (subarray s (data point) j) = Ok (d i j)) ->
  (forall i j, i < n -> j < n -> d i j = d j i) ->
  (forall i, i < n -> Forall (eq zero) (data (d i i))) ->
  exists (vals : list (ndarray R)) (D : list (list (ndarray R))),
    RiemannianMetric.pairwise_dist_values self point = Ok vals
    /\ vals = concat (map (fun i => map (d i) (seq i (n - i))) (seq 0 n))
    /\ 2 * length vals = n * (n + 1)
    /\ RiemannianMetric.dist_pairwise self point = Ok D
    /\ length D = n
    /\ (forall i, i < n -> length (nth i D []) = n)
    /\ (forall i j, i < n -> j < n ->
          RiemannianMetric.dist self (subarray s (data point) i)
                                     (subarray s (data point) j)
          = Ok (nth j (nth i D []) (scalar zero)))
    /\ (forall i j, i < n -> j < n ->
          nth j (nth i D []) (scalar zero) = nth i (nth j D []) (scalar zero))
    /\ (forall i, i < n ->
          Forall (eq zero) (data (nth i (nth i D []) (scalar zero)))).
Proof.
  intros Hs Hd Hsym Hzero.
  set (vals := concat (map (fun i => map (d i) (seq i (n - i))) (seq 0 n))).
  set (D := map (fun i => map (fun j => d (Nat.min i j) (Nat.max i j)) (seq 0 n))
                (seq 0 n)).
  assert (forall i j, i < n -> j < n ->
            nth j (nth i D []) (scalar zero) = d i j) as HD.
  { intros i j Hi Hj. unfold D.
    rewrite (nth_indep _ [] (map (fun j => d (Nat.min 0 j) (Nat.max 0 j)) (seq 0 n)))
      by (now rewrite length_map, length_seq).
    rewrite (map_nth (fun i => map (fun j => d (Nat.min i j) (Nat.max i j)) (seq 0 n))),
      seq_nth by exact Hi.
    rewrite (nth_indep _ (scalar zero) (d (Nat.min (0 + i) 0) (Nat.max (0 + i) 0)))
      by (now rewrite length_map, length_seq).
    rewrite (map_nth (fun j => d (Nat.min (0 + i) j) (Nat.max (0 + i) j))),
      seq_nth by exact Hj.
    simpl. destruct (Nat.le_ge_cases i j) as [Hle|Hge].
    - now rewrite Nat.min_l, Nat.max_r.
    - rewrite Nat.min_r, Nat.max_l by exact Hge. now apply Hsym. }
  exists vals, D.
  pose proof (pairwise_dist_values_rows self point d Hs Hd) as Hv. fold vals in Hv.
  split; [exact Hv|]. split; [reflexivity|]. split.
  { unfold vals. rewrite (@length_concat_rows _ _ n n).
    - pose proof (@twice_row_offset n n (le_n n)). nia.
    - intros k _. now rewrite length_map, length_seq.
    - lia. }
  split.
  { unfold RiemannianMetric.dist_pairwise. rewrite Hv. simpl bind.
    unfold vals. apply from_vector_rows. }
  split; [unfold D; now rewrite length_map, length_seq|].
  split.
  { intros i Hi. unfold D.
    rewrite (nth_indep _ [] (map (fun j => d (Nat.min 0 j) (Nat.max 0 j)) (seq 0 n)))
      by (now rewrite length_map, length_seq).
    rewrite (map_nth (fun i => map (fun j => d (Nat.min i j) (Nat.max i j)) (seq 0 n))).
    now rewrite length_map, length_seq. }
  split; [intros i j Hi Hj; rewrite HD by assumption; now apply Hd|].
  split; [intros i j Hi Hj; rewrite !HD by assumption; now apply Hsym|].
  intros i Hi. rewrite HD by assumption. now apply Hzero.
Qed.

End PairwiseDistances.

(** Three points of the Euclidean plane, [(0,0)], [(3,4)] and [(0,4)], at
    distances [5], [4] and [3]. *)
Lemma dist_pairwise_symmetric_matrix_witness :
  exists D,
    RiemannianMetric.dist_pairwise (QExample.euclidean 2)
      (mk_array [3; 2] [0; 0; 3; 4; 0; 4]%Q) = Ok D
    /\ length D = 3
    /\ forall i j, i < 3 -> j < 3 ->
         nth j (nth i D []) (scalar 0%Q) = nth i (nth j D []) (scalar 0%Q).
Proof.
  pose (points := mk_array [3; 2] [0; 0; 3; 4; 0; 4]%Q).
  pose (d := fun i j : nat =>
          match RiemannianMetric.dist (QExample.euclidean 2)
                  (subarray [2] (data points) i) (subarray [2] (data points) j) with
          | Ok v => v
          | Raise _ => scalar 0%Q
          end).
  destruct (@dist_pairwise_symmetric_matrix QExample.QBackend
              (QExample.euclidean 2) points 3 [2] d) as (vals & D & H).
  - reflexivity.
  - intros i j Hi Hj.
    destruct i as [|[|[|i]]]; destruct j as [|[|[|j]]]; try lia; reflexivity.
  - intros i j Hi Hj.
    destruct i as [|[|[|i]]]; destruct j as [|[|[|j]]]; try lia; reflexivity.
  - intros i Hi.
    destruct i as [|[|[|i]]]; try lia; repeat constructor.
  - exists D. destruct H as (_ & _ & _ & HD & Hlen & _ & _ & Hsym & _).
    split; [exact HD|]. split; [exact Hlen|]. exact Hsym.
Defined.

(** ** Contractions *)

Section Contractions.
Context {B : Backend}.

Lemma sum_range_ext (n : nat) (f g : nat -> R) :
(forall k, k < n -> f k = g k) -> sum_range n f = sum_range n g.
Proof.
intros H. unfold sum_range.
assert (forall l, (forall k, In k l -> k < n) ->
          fold_right (fun m acc => add (f m) acc) zero l
          = fold_right (fun m acc => add (g m) acc) zero l) as E.
{ induction l as [|k l IH]; intros Hl; simpl; [reflexivity|].
  rewrite H by (apply Hl; left; reflexivity).
  rewrite IH by (intros j Hj; apply Hl; right; exact Hj). reflexivity. }
apply E. intros k Hk. apply in_seq in Hk. lia.
Qed.

Lemma broadcast_shapes_1 (a b n : nat) :
broadcast_shapes [a] [b] = Ok [n] -> (a = n \/ a = 1) /\ (b = n \/ b = 1).
Proof.
unfold broadcast_shapes; simpl.
destruct (Nat.eqb_spec a b); simpl.
- intros E; inversion E; subst; auto.
- destruct (Nat.eqb_spec a 1); simpl.
  + intros E; inversion E; subst; auto.
  + destruct (Nat.eqb_spec b 1); simpl; intros E; inversion E; subst; auto.
Qed.

Lemma bcast_index_1_lt (a n i : nat) :
a = n \/ a = 1 -> i < n -> (if a =? 1 then 0 else i) < a.
Proof. intros [->| ->] Hi; [destruct (Nat.eqb_spec n 1)|simpl]; lia. Qed.

Lemma einsum_jk_spec (a m : ndarray R) (na ng n1 d : nat) :
shape a = [na; d] -> shape m = [ng; d; d] ->
broadcast_shapes [na] [ng] = Ok [n1] ->
exists r, einsum "...j,...jk->...k" a m = Ok r
  /\ shape r = [n1; d]
  /\ wf_array r
  /\ forall b k, b < n1 -> k < d ->
       get zero r [b; k]
       = sum_range d (fun j =>
           mul (get zero a (bcast_index [na] [b] ++ [j]))
               (get zero m (bcast_index [ng] [b] ++ [j; k]))).
Proof.
intros Ha Hm Hb. unfold einsum, split_dims. cbn. rewrite Ha, Hm. cbn.
rewrite Nat.eqb_refl. cbn. rewrite Hb. cbn.
eexists. split; [reflexivity|]. split; [reflexivity|]. split; [apply wf_build|].
intros b k Hb' Hk. rewrite get_build by (repeat constructor; assumption).
reflexivity.
Qed.

Lemma einsum_kk_spec (a b : ndarray R) (na nb n d : nat) :
shape a = [na; d] -> shape b = [nb; d] ->
broadcast_shapes [na] [nb] = Ok [n] ->
exists r, einsum "...k,...k->..." a b = Ok r
  /\ shape r = [n]
  /\ wf_array r
  /\ forall i, i < n ->
       get zero r [i]
       = sum_range d (fun k =>
           mul (get zero a (bcast_index [na] [i] ++ [k]))
               (get zero b (bcast_index [nb] [i] ++ [k]))).
Proof.
intros Ha Hm Hb. unfold einsum, split_dims. cbn. rewrite Ha, Hm. cbn.
rewrite Nat.eqb_refl. cbn. rewrite Hb. cbn.
eexists. split; [reflexivity|]. split; [reflexivity|]. split; [apply wf_build|].
intros i Hi. rewrite get_build by (repeat constructor; assumption).
reflexivity.
Qed.

Lemma shape_vectorize_vector (a : ndarray R) (n d : nat) :
vector_batch (shape a) n d -> shape (vectorize_vector a) = [n; d].
Proof.
unfold vectorize_vector, to_ndarray, ndim.
intros [[E ->]|E]; rewrite E; simpl; rewrite ?E; reflexivity.
Qed.

Lemma shape_to_ndarray_3 (g : ndarray R) (n d : nat) :
matrix_batch (shape g) n d -> shape (to_ndarray g 3 0) = [n; d; d].
Proof.
unfold to_ndarray, ndim.
intros [[E ->]|E]; rewrite E; simpl; rewrite ?E; reflexivity.
Qed.

Lemma get_batch_column (r : ndarray R) (n i : nat) :
shape r = [n] ->
shape (to_ndarray (to_ndarray r 1 0) 2 1) = [n; 1]
/\ get zero (to_ndarray (to_ndarray r 1 0) 2 1) [i; 0] = get zero r [i].
Proof.
intros E. unfold to_ndarray, ndim, get, expand_dims, insert_at.
repeat (rewrite E; simpl).
split; reflexivity.
Qed.

(** The body alone, on arguments no decorator has touched: one vector against
    one matrix still yields an array with a batch axis. *)
Lemma inner_product_body_unbatched
      (self : metric_object) (a b : ndarray R) (bp : option (ndarray R))
      (g : ndarray R) (d : nat) :
  shape a = [d] -> shape b = [d] ->
  self_metric_matrix self bp = Ok g -> shape g = [d; d] ->
  exists r, RiemannianMetric.inner_product_body self a b bp = Ok r
            /\ shape r = [1; 1].
Proof.
  intros Ha Hb Hg Hs. unfold RiemannianMetric.inner_product_body.
  rewrite Hg. cbn [bind].
  unfold einsum, split_dims, to_ndarray, ndim, expand_dims, insert_at.
  rewrite Hs. cbn. rewrite Ha. cbn. rewrite !Nat.eqb_refl. cbn.
  rewrite Hb. cbn. rewrite !Nat.eqb_refl. cbn.
  eexists. split; reflexivity.
Qed.

(** The body of [inner_product] on normalized arguments: [n] rows of one
    entry, row [i] being the contraction of the first vector against the
    columns of the metric matrix and then against the second vector. *)
Lemma inner_product_body_entries
      (self : metric_object) (a b : ndarray R) (bp : option (ndarray R))
      (g : ndarray R) (d na nb ng n1 n : nat) :
shape a = [na; d] ->
shape b = [nb; d] ->
self_metric_matrix self bp = Ok g ->
matrix_batch (shape g) ng d ->
broadcast_shapes [na] [ng] = Ok [n1] ->
broadcast_shapes [n1] [nb] = Ok [n] ->
exists r,
  RiemannianMetric.inner_product_body self a b bp = Ok r
  /\ shape r = [n; 1]
  /\ forall i, i < n ->
       nth i (data r) zero
       = sum_range d (fun k =>
           mul (sum_range d (fun j =>
                  mul (get zero a (bcast_index [na] (bcast_index [n1] [i]) ++ [j]))
                      (get zero (to_ndarray g 3 0)
                           (bcast_index [ng] (bcast_index [n1] [i]) ++ [j; k]))))
               (get zero b (bcast_index [nb] [i] ++ [k]))).
Proof.
intros Ha Hb Hg Hgs Hb1 Hb2.
apply shape_to_ndarray_3 in Hgs.
unfold RiemannianMetric.inner_product_body.
rewrite Hg. cbn [bind].
destruct (einsum_jk_spec _ _ Ha Hgs Hb1) as (aux & E1 & S1 & W1 & G1).
rewrite E1. cbn [bind].
destruct (einsum_kk_spec _ _ S1 Hb Hb2) as (r & E2 & S2 & W2 & G2).
rewrite E2. cbn [bind].
destruct (get_batch_column r 0 S2) as [Hshape _].
eexists. split; [reflexivity|]. split; [exact Hshape|].
intros i Hi.
assert (nth i (data (to_ndarray (to_ndarray r 1 0) 2 1)) zero = get zero r [i]) as ->.
{ unfold to_ndarray, ndim, expand_dims, get. repeat (rewrite S2; simpl).
  f_equal. lia. }
rewrite G2 by exact Hi. apply sum_range_ext. intros k Hk. f_equal.
apply broadcast_shapes_1 in Hb2. destruct Hb2 as [H1 _].
exact (G1 _ k (bcast_index_1_lt H1 Hi) Hk).
Qed.

(** What the decorator does to [n] rows of one entry: the buffer is kept, the
    shape becomes [(n,)], or [()] when [n] is one and no vector argument came
    with a batch axis. *)
Lemma adapt_result_of_rows (in_shapes : list (list nat)) (r : ndarray R) (n : nat) :
shape r = [n; 1] ->
data (adapt_result in_shapes r) = data r
/\ shape (adapt_result in_shapes r)
   = (if came_unbatched in_shapes && (n =? 1) then [] else [n]).
Proof.
intros Hs. unfold adapt_result, squeeze_dim_1. rewrite Hs.
destruct (came_unbatched in_shapes); [|split; reflexivity].
unfold squeeze_dim_0. cbn [shape data andb].
destruct n as [|[|n]]; split; reflexivity.
Qed.

(** C8, as the code has it: the body of [inner_product] computes an array
    with a batch axis, of shape [(n, 1)], where [n] is what the batch sizes
    of the two vectors and of the metric matrix broadcast to; the decorator
    then adapts it, and what [inner_product] returns has shape [(n,)], or no
    axis at all when [n] is one and no vector argument came with a batch
    axis.  Entry [i] contracts [tangent_vec_a] against the columns of the
    metric matrix and the result against [tangent_vec_b]; an operand of batch
    size one is read at its only element for every [i]. *)
Theorem inner_product_result_is_squeezed
      (self : metric_object) (a b : ndarray R) (bp : option (ndarray R))
      (g : ndarray R) (d na nb ng n1 n : nat) :
vector_batch (shape a) na d ->
vector_batch (shape b) nb d ->
self_metric_matrix self (option_map vectorize_vector bp) = Ok g ->
matrix_batch (shape g) ng d ->
broadcast_shapes [na] [ng] = Ok [n1] ->
broadcast_shapes [n1] [nb] = Ok [n] ->
exists body_result r,
  RiemannianMetric.inner_product_body self
    (vectorize_vector a) (vectorize_vector b) (option_map vectorize_vector bp)
  = Ok body_result
  /\ shape body_result = [n; 1]
  /\ RiemannianMetric.inner_product self a b bp = Ok r
  /\ data r = data body_result
  /\ shape r
     = (if came_unbatched (RiemannianMetric.vector_argument_shapes a b bp)
           && (n =? 1)
        then [] else [n])
  /\ forall i, i < n ->
       nth i (data r) zero
       = sum_range d (fun k =>
           mul (sum_range d (fun j =>
                  mul (get zero (vectorize_vector a)
                           (bcast_index [na] (bcast_index [n1] [i]) ++ [j]))
                      (get zero (to_ndarray g 3 0)
                           (bcast_index [ng] (bcast_index [n1] [i]) ++ [j; k]))))
               (get zero (vectorize_vector b) (bcast_index [nb] [i] ++ [k]))).
Proof.
intros Ha Hb Hg Hgs Hb1 Hb2.
apply shape_vectorize_vector in Ha, Hb.
destruct (inner_product_body_entries self _ _ _ Ha Hb Hg Hgs Hb1 Hb2)
  as (rb & Erb & Srb & Grb).
destruct (adapt_result_of_rows
            (RiemannianMetric.vector_argument_shapes a b bp) rb Srb)
  as [Hdata Hshape].
exists rb. eexists. split; [exact Erb|]. split; [exact Srb|].
split; [unfold RiemannianMetric.inner_product; rewrite Erb; reflexivity|].
split; [exact Hdata|]. split; [exact Hshape|].
intros i Hi. rewrite Hdata. now apply Grb.
Qed.

Lemma bcast_index_same (n b : nat) : b < n -> (if n =? 1 then 0 else b) = b.
Proof. intros H. destruct (Nat.eqb_spec n 1); lia. Qed.

Lemma transpose_matrix_spec (g : ndarray R) (d : nat) :
shape g = [d; d] ->
exists t, transpose g [1; 0] = Ok t
  /\ shape t = [d; d]
  /\ forall i j, i < d -> j < d -> get zero t [i; j] = get zero g [j; i].
Proof.
intros Hg. unfold transpose, ndim. rewrite Hg. cbn.
eexists. split; [reflexivity|]. split; [reflexivity|].
intros i j Hi Hj. rewrite get_build by (repeat constructor; assumption).
reflexivity.
Qed.

Lemma transpose_batch_spec (g : ndarray R) (n d : nat) :
shape g = [n; d; d] ->
exists t, transpose g [0; 2; 1] = Ok t
  /\ shape t = [n; d; d]
  /\ forall b i j, b < n -> i < d -> j < d ->
       get zero t [b; i; j] = get zero g [b; j; i].
Proof.
intros Hg. unfold transpose, ndim. rewrite Hg. cbn.
eexists. split; [reflexivity|]. split; [reflexivity|].
intros b i j Hb Hi Hj. rewrite get_build by (repeat constructor; assumption).
reflexivity.
Qed.

Lemma einsum_i_ij_spec (v m : ndarray R) (d : nat) :
shape v = [d] -> shape m = [d; d] ->
exists r, einsum "...i,...ij->...i" v m = Ok r
  /\ shape r = [d]
  /\ forall i, i < d ->
       get zero r [i]
       = sum_range d (fun j => mul (get zero v [i]) (get zero m [i; j])).
Proof.
intros Hv Hm. unfold einsum, split_dims. cbn. rewrite Hv, Hm. cbn.
rewrite !Nat.eqb_refl. cbn.
eexists. split; [reflexivity|]. split; [reflexivity|].
intros i Hi. rewrite get_build by (repeat constructor; assumption).
reflexivity.
Qed.

Lemma einsum_bi_bij_spec (v m : ndarray R) (n d : nat) :
shape v = [n; d] -> shape m = [n; d; d] ->
exists r, einsum "...i,...ij->...i" v m = Ok r
  /\ shape r = [n; d]
  /\ forall b i, b < n -> i < d ->
       get zero r [b; i]
       = sum_range d (fun j => mul (get zero v [b; i]) (get zero m [b; i; j])).
Proof.
intros Hv Hm. unfold einsum, split_dims. cbn. rewrite Hv, Hm. cbn.
rewrite !Nat.eqb_refl. cbn. unfold broadcast_shapes. cbn. rewrite !Nat.eqb_refl. cbn.
eexists. split; [reflexivity|]. split; [reflexivity|].
intros b i Hb Hi. rewrite get_build by (repeat constructor; assumption).
cbn. rewrite (bcast_index_same Hb). reflexivity.
Qed.

Lemma einsum_bi_ij_spec (v m : ndarray R) (n d : nat) :
  shape v = [n; d] -> shape m = [d; d] ->
  exists r, einsum "...i,...ij->...i" v m = Ok r
    /\ shape r = [n; d]
    /\ forall b i, b < n -> i < d ->
         get zero r [b; i]
         = sum_range d (fun j => mul (get zero v [b; i]) (get zero m [i; j])).
Proof.
  intros Hv Hm. unfold einsum, split_dims. cbn. rewrite Hv, Hm. cbn.
  rewrite !Nat.eqb_refl. cbn.
  eexists. split; [reflexivity|]. split; [reflexivity|].
  intros b i Hb Hi. rewrite get_build by (repeat constructor; assumption).
  cbn. rewrite (bcast_index_same Hb). reflexivity.
Qed.

(** C6: [grad] takes [tangent_vec = metric.log(base_point=y_pred,
    point=y_true)], scales it by [-2], transposes
    [metric.metric_matrix(y_pred)] with the axes [(0, 2, 1)] when the matrix
    has three axes and [(1, 0)] otherwise, and contracts the two with
    ["...i,...ij->...i"]: entry [i] of the result is entry [i] of the scaled
    vector times the sum over [j] of the transposed matrix at [(i, j)], which
    is the matrix at [(j, i)].  When the logarithm is shaped like [y_pred]
    and the matrix is one matrix or one matrix per element of the batch of
    [y_pred], the result is shaped like [y_pred]. *)
Theorem grad_contracts_transposed_metric
        (metric : metric_object) (y_pred y_true t g : ndarray R)
        (batch gbatch : list nat) (d : nat) :
  self_log metric y_true y_pred = Ok t ->
  self_metric_matrix metric (Some y_pred) = Ok g ->
  length batch <= 1 ->
  gbatch = [] \/ gbatch = batch ->
  shape y_pred = batch ++ [d] ->
  shape t = batch ++ [d] ->
  wf_array t ->
  shape g = gbatch ++ [d; d] ->
  exists transposed r,
    transpose g (if ndim g =? 3 then [0; 2; 1] else [1; 0]) = Ok transposed
    /\ (forall b i j, in_bounds b gbatch -> i < d -> j < d ->
          get zero transposed (b ++ [i; j]) = get zero g (b ++ [j; i]))
    /\ grad y_pred y_true metric
       = einsum "...i,...ij->...i" (map_array (mul (neg two)) t) transposed
    /\ grad y_pred y_true metric = Ok r
    /\ shape r = shape y_pred
    /\ forall b i, in_bounds b batch -> i < d ->
         get zero r (b ++ [i])
         = sum_range d (fun j =>
             mul (mul (neg two) (get zero t (b ++ [i])))
                 (get zero g (firstn (length gbatch) b ++ [j; i]))).
Proof.
  intros Hlog Hmat Hlen Hgb Hy Ht Hwf Hg.
  unfold grad. rewrite Hlog, Hmat. cbn [bind].
  assert (gbatch = [] \/ (exists n, batch = [n] /\ gbatch = [n])) as Hcases.
  { destruct Hgb as [->| ->]; [left; reflexivity|].
    destruct batch as [|n [|? ?]]; [left; reflexivity| |simpl in Hlen; lia].
    right. exists n. split; reflexivity. }
  destruct Hcases as [->|(n & -> & ->)]; simpl in Hy, Ht, Hg.
  - destruct (transpose_matrix_spec g Hg) as (tr & Etr & Str & Gtr).
    unfold ndim. rewrite Hg. cbn [length Nat.eqb]. rewrite Etr. cbn [bind].
    rewrite bind_ret.
    destruct batch as [|n [|? ?]]; [| |simpl in Hlen; lia]; simpl in Hy, Ht.
    + destruct (@einsum_i_ij_spec (map_array (mul (neg two)) t) tr d Ht Str)
        as (r & Er & Sr & Gr).
      exists tr, r. split; [reflexivity|]. split.
      { intros b i j Hb. inversion Hb; subst. simpl. now apply Gtr. }
      split; [reflexivity|]. split; [exact Er|]. split; [congruence|].
      intros b i Hb Hi. inversion Hb; subst. simpl. rewrite Gr by exact Hi.
      apply sum_range_ext. intros j Hj. f_equal.
      * apply (get_map_array zero zero); [exact Hwf|].
        rewrite Ht. repeat constructor; assumption.
      * now apply Gtr.
    + destruct (@einsum_bi_ij_spec (map_array (mul (neg two)) t) tr n d Ht Str)
        as (r & Er & Sr & Gr).
      exists tr, r. split; [reflexivity|]. split.
      { intros b i j Hb. inversion Hb; subst. simpl. now apply Gtr. }
      split; [reflexivity|]. split; [exact Er|]. split; [congruence|].
      intros b i Hb Hi. inversion Hb as [|b0 ? bt ? Hb0 Hbt]; subst.
      inversion Hbt; subst. simpl. rewrite Gr by assumption.
      apply sum_range_ext. intros j Hj. f_equal.
      * apply (get_map_array zero zero); [exact Hwf|].
        rewrite Ht. repeat constructor; assumption.
      * now apply Gtr.
  - destruct (transpose_batch_spec g Hg) as (tr & Etr & Str & Gtr).
    unfold ndim. rewrite Hg. cbn [length Nat.eqb]. rewrite Etr. cbn [bind].
    rewrite bind_ret.
    destruct (@einsum_bi_bij_spec (map_array (mul (neg two)) t) tr n d Ht Str)
      as (r & Er & Sr & Gr).
    exists tr, r. split; [reflexivity|]. split.
    { intros b i j Hb. inversion Hb as [|b0 ? bt ? Hb0 Hbt]; subst.
      inversion Hbt; subst. simpl. now apply Gtr. }
    split; [reflexivity|]. split; [exact Er|]. split; [congruence|].
    intros b i Hb Hi. inversion Hb as [|b0 ? bt ? Hb0 Hbt]; subst.
    inversion Hbt; subst. simpl. rewrite Gr by assumption.
    apply sum_range_ext. intros j Hj. f_equal.
    + apply (get_map_array zero zero); [exact Hwf|].
      rewrite Ht. repeat constructor; assumption.
    + now apply Gtr.
Qed.

Lemma einsum_im_mkl_spec (c dg : ndarray R) (d : nat) :
shape c = [d; d] -> shape dg = [d; d; d] ->
exists r, einsum "...im,...mkl->...ikl" c dg = Ok r
  /\ shape r = [d; d; d] /\ wf_array r
  /\ forall i k l, i < d -> k < d -> l < d ->
       get zero r [i; k; l]
       = sum_range d (fun m => mul (get zero c [i; m]) (get zero dg [m; k; l])).
Proof.
intros Hc Hd. unfold einsum, split_dims. cbn. rewrite Hc, Hd. cbn.
rewrite !Nat.eqb_refl. cbn.
eexists. split; [reflexivity|]. split; [reflexivity|]. split; [apply wf_build|].
intros i k l Hi Hk Hl. rewrite get_build by (repeat constructor; assumption).
reflexivity.
Qed.

Lemma einsum_im_mlk_spec (c dg : ndarray R) (d : nat) :
shape c = [d; d] -> shape dg = [d; d; d] ->
exists r, einsum "...im,...mlk->...ilk" c dg = Ok r
  /\ shape r = [d; d; d] /\ wf_array r
  /\ forall i l k, i < d -> l < d -> k < d ->
       get zero r [i; l; k]
       = sum_range d (fun m => mul (get zero c [i; m]) (get zero dg [m; l; k])).
Proof.
intros Hc Hd. unfold einsum, split_dims. cbn. rewrite Hc, Hd. cbn.
rewrite !Nat.eqb_refl. cbn.
eexists. split; [reflexivity|]. split; [reflexivity|]. split; [apply wf_build|].
intros i k l Hi Hk Hl. rewrite get_build by (repeat constructor; assumption).
reflexivity.
Qed.

Lemma einsum_im_klm_spec (c dg : ndarray R) (d : nat) :
shape c = [d; d] -> shape dg = [d; d; d] ->
exists r, einsum "...im,...klm->...ikl" c dg = Ok r
  /\ shape r = [d; d; d] /\ wf_array r
  /\ forall i k l, i < d -> k < d -> l < d ->
       get zero r [i; k; l]
       = sum_range d (fun m => mul (get zero c [i; m]) (get zero dg [k; l; m])).
Proof.
intros Hc Hd. unfold einsum, split_dims. cbn. rewrite Hc, Hd. cbn.
rewrite !Nat.eqb_refl. cbn.
eexists. split; [reflexivity|]. split; [reflexivity|]. split; [apply wf_build|].
intros i k l Hi Hk Hl. rewrite get_build by (repeat constructor; assumption).
reflexivity.
Qed.

Lemma broadcast2_same_rank3 (f : R -> R -> R) (a b : ndarray R) (d : nat) :
shape a = [d; d; d] -> shape b = [d; d; d] ->
exists r, broadcast2 f a b = Ok r
  /\ shape r = [d; d; d] /\ wf_array r
  /\ forall i k l, i < d -> k < d -> l < d ->
       get zero r [i; k; l] = f (get zero a [i; k; l]) (get zero b [i; k; l]).
Proof.
intros Ha Hb. unfold broadcast2, broadcast_shapes. rewrite Ha, Hb. cbn.
rewrite !Nat.eqb_refl. cbn.
eexists. split; [reflexivity|]. split; [reflexivity|]. split; [apply wf_build|].
intros i k l Hi Hk Hl. rewrite get_build by (repeat constructor; assumption).
cbn. rewrite !(bcast_index_same Hi), !(bcast_index_same Hk), !(bcast_index_same Hl).
reflexivity.
Qed.

(** C2: for a base point where the metric matrix, its inverse [c] and its
    derivative [dg] are defined, [christoffels] is [0.5] times the sum of
    three contractions of [c] against [dg]: [term_1] reads [dg] in the layout
    [(m,k,l)] and is laid out [(i,k,l)]; [term_2] reads it in the layout
    [(m,l,k)] and is laid out [(i,l,k)]; the third is the negated contraction
    that reads [dg] in the layout [(k,l,m)] and is laid out [(i,k,l)].  The
    three are added position by position, the third with the sign it already
    carries. *)
Theorem christoffels_three_contractions
      (self : metric_object) (base_point g c dg : ndarray R) (d : nat) :
self_metric_matrix self (Some base_point) = Ok g ->
linalg_inv g = Ok c ->
jacobian (fun x => self_metric_matrix self (Some x)) base_point = Ok dg ->
shape c = [d; d] ->
shape dg = [d; d; d] ->
exists term_1 term_2 contraction_3 gamma,
  RiemannianMetric.inner_product_inverse_matrix self (Some base_point) = Ok c
  /\ RiemannianMetric.inner_product_derivative_matrix self base_point = Ok dg
  /\ einsum "...im,...mkl->...ikl" c dg = Ok term_1
  /\ einsum "...im,...mlk->...ilk" c dg = Ok term_2
  /\ einsum "...im,...klm->...ikl" c dg = Ok contraction_3
  /\ RiemannianMetric.christoffels self base_point = Ok gamma
  /\ shape gamma = [d; d; d]
  /\ (forall i k l, i < d -> k < d -> l < d ->
        get zero term_1 [i; k; l]
        = sum_range d (fun m => mul (get zero c [i; m]) (get zero dg [m; k; l])))
  /\ (forall i l k, i < d -> l < d -> k < d ->
        get zero term_2 [i; l; k]
        = sum_range d (fun m => mul (get zero c [i; m]) (get zero dg [m; l; k])))
  /\ (forall i k l, i < d -> k < d -> l < d ->
        get zero (map_array neg contraction_3) [i; k; l]
        = neg (sum_range d (fun m =>
                 mul (get zero c [i; m]) (get zero dg [k; l; m]))))
  /\ (forall i k l, i < d -> k < d -> l < d ->
        get zero gamma [i; k; l]
        = mul half
            (add (add (get zero term_1 [i; k; l]) (get zero term_2 [i; k; l]))
                 (get zero (map_array neg contraction_3) [i; k; l]))).
Proof.
intros Hg Hinv Hjac Hc Hdg.
destruct (einsum_im_mkl_spec c dg Hc Hdg) as (t1 & E1 & S1 & W1 & G1).
destruct (einsum_im_mlk_spec c dg Hc Hdg) as (t2 & E2 & S2 & W2 & G2).
destruct (einsum_im_klm_spec c dg Hc Hdg) as (t3 & E3 & S3 & W3 & G3).
destruct (@broadcast2_same_rank3 add t1 t2 d S1 S2) as (t12 & E12 & S12 & W12 & G12).
destruct (@broadcast2_same_rank3 add t12 (map_array neg t3) d S12 S3)
  as (t123 & E123 & S123 & W123 & G123).
assert (forall i k l, i < d -> k < d -> l < d ->
          get zero (map_array neg t3) [i; k; l] = neg (get zero t3 [i; k; l])) as N3.
{ intros i k l Hi Hk Hl. apply (get_map_array zero zero); [exact W3|].
  rewrite S3. repeat constructor; assumption. }
assert (RiemannianMetric.inner_product_inverse_matrix self (Some base_point) = Ok c)
  as Hco.
{ unfold RiemannianMetric.inner_product_inverse_matrix. rewrite Hg. cbn [bind].
  rewrite Hinv. reflexivity. }
exists t1, t2, t3, (map_array (mul half) t123).
split; [exact Hco|]. split; [exact Hjac|].
split; [exact E1|]. split; [exact E2|]. split; [exact E3|]. split.
{ unfold RiemannianMetric.christoffels. rewrite Hco. cbn [bind].
  unfold RiemannianMetric.inner_product_derivative_matrix. rewrite Hjac. cbn [bind].
  rewrite E1. cbn [bind]. rewrite E2. cbn [bind]. rewrite E3. cbn [bind].
  rewrite E12. cbn [bind]. rewrite E123. reflexivity. }
split; [exact S123|]. split; [exact G1|]. split; [exact G2|]. split.
{ intros i k l Hi Hk Hl. rewrite N3 by assumption. f_equal. now apply G3. }
intros i k l Hi Hk Hl.
rewrite (get_map_array zero zero (mul half) W123)
  by (rewrite S123; repeat constructor; assumption).
rewrite G123, G12 by assumption. reflexivity.
Qed.
End Contractions.

(** A batch of two vectors of the Euclidean plane against one vector: the
    inner products come back as an array of shape [(2,)]. *)
Lemma inner_product_result_is_squeezed_witness :
  exists r,
    RiemannianMetric.inner_product (QExample.euclidean 2)
      (mk_array [2; 2] [1; 2; 5; 6]%Q) (QExample.vec [3; 4]%Q) None = Ok r
    /\ shape r = [2].
Proof.
  destruct (@inner_product_result_is_squeezed QExample.QBackend
              (QExample.euclidean 2)
              (mk_array [2; 2] [1; 2; 5; 6]%Q) (QExample.vec [3; 4]%Q) None
              (QExample.eye 2) 2 2 1 1 2 2) as (rb & r & _ & _ & Hr & _ & Hs & _).
  - right; reflexivity.
  - left; split; reflexivity.
  - reflexivity.
  - left; split; reflexivity.
  - reflexivity.
  - reflexivity.
  - exists r. split; [exact Hr | exact Hs].
Defined.

(** C8, as the claim words it, fails: for two unbatched vectors of the
    Euclidean plane, [(1, 2)] and [(3, 4)], [inner_product] returns the 0-d
    array holding [11]: a value with no axis, so with no batch axis. *)
Lemma inner_product_unbatched_has_no_batch_axis :
  exists r,
    RiemannianMetric.inner_product (QExample.euclidean 2)
      (QExample.vec [1; 2]%Q) (QExample.vec [3; 4]%Q) None = Ok r
    /\ r = scalar 11%Q
    /\ ndim r = 0
    /\ ~ (exists n rest, shape r = n :: rest).
Proof.
  eexists. split; [reflexivity|]. split; [reflexivity|]. split; [reflexivity|].
  intros (n & rest & H). discriminate H.
Qed.

(** The Euclidean plane, prediction [(0,0)] and truth [(3,4)]. *)
Lemma grad_contracts_transposed_metric_witness :
  exists r,
    @grad QExample.QBackend
      (QExample.vec [0; 0]%Q) (QExample.vec [3; 4]%Q) (QExample.euclidean 2) = Ok r
    /\ shape r = shape (QExample.vec [0; 0]%Q).
Proof.
  destruct (@grad_contracts_transposed_metric QExample.QBackend
              (QExample.euclidean 2) (QExample.vec [0; 0]%Q) (QExample.vec [3; 4]%Q)
              (QExample.vec [3; 4]%Q) (QExample.eye 2) [] [] 2)
    as (tr & r & _ & _ & _ & Hr & Hs & _).
  - reflexivity.
  - reflexivity.
  - simpl; lia.
  - left; reflexivity.
  - reflexivity.
  - reflexivity.
  - reflexivity.
  - reflexivity.
  - exists r. split; [exact Hr | exact Hs].
Defined.

(** The warped plane at the point [(1, 0)]: the metric is [diag(1, 2)], its
    inverse [diag(1, 1/2)], and the only non-zero derivative is that of the
    second diagonal entry along the first coordinate, [2]. *)
Lemma christoffels_three_contractions_witness :
  exists gamma,
    RiemannianMetric.christoffels QExample.warped (QExample.vec [1; 0]%Q) = Ok gamma
    /\ shape gamma = [2; 2; 2].
Proof.
  destruct (@christoffels_three_contractions QExample.QBackend QExample.warped
              (QExample.vec [1; 0]%Q)
              (mk_array [2; 2] [1; 0; 0; 2]%Q)
              (mk_array [2; 2] [1; 0; 0; 1 # 2]%Q)
              (mk_array [2; 2; 2] [0; 0; 0; 0; 0; 0; 2; 0]%Q) 2)
    as (t1 & t2 & t3 & gamma & _ & _ & _ & _ & _ & Hg & Hs & _).
  - reflexivity.
  - reflexivity.
  - reflexivity.
  - reflexivity.
  - reflexivity.
  - exists gamma. split; [exact Hg | exact Hs].
Defined.


(** * Further properties *)

(** ** Norms and distances *)

Section NormsAndDistances.
Context {B : Backend}.

(** X1: the distance between two points is the norm of the logarithm: for all
    points [a] and [b], [dist(a, b)] and
    [norm(log(point=b, base_point=a), base_point=a)] are one computation, and
    both are the entrywise square root of [squared_dist(a, b)]. *)
Theorem dist_is_norm_of_log
        (self : metric_object) (point_a point_b : ndarray R) :
  RiemannianMetric.dist self point_a point_b
  = (log <- self_log self point_b point_a ;;
     RiemannianMetric.norm self log (Some point_a))
  /\ RiemannianMetric.dist self point_a point_b
     = (sq <- RiemannianMetric.squared_dist self point_a point_b ;;
        Ok (mk_array (shape sq) (map sqrt (data sq)))).
Proof.
  unfold RiemannianMetric.dist, RiemannianMetric.norm,
    RiemannianMetric.squared_dist.
  split; [|reflexivity].
  destruct (self_log self point_b point_a) as [v|e]; simpl; [|reflexivity].
  destruct (RiemannianMetric.squared_norm self v (Some point_a)); reflexivity.
Qed.

Lemma fold_left_raise {A S} (f : M S -> A -> M S) (e : exn) (l : list A) :
  (forall x, f (Raise e) x = Raise e) -> fold_left f l (Raise e) = Raise e.
Proof.
  intros Hf. induction l as [|x l IH]; simpl; [reflexivity|].
  now rewrite Hf.
Qed.

(** X2: the inputs on which [diameter] evaluates no distance or cannot index
    its argument.  A 0-d array has no leading extent: [IndexError].  A leading
    extent of zero or one leaves the loop empty: the result is [0.0].  A 1-d
    array of two or more entries enters the loop and fails on
    [points[i, :]]: [IndexError]. *)
Theorem diameter_degenerate_inputs (self : metric_object) (points : ndarray R) :
  match shape points with
  | [] => RiemannianMetric.diameter self points
          = Raise (IndexError "tuple index out of range")
  | 0 :: _ | 1 :: _ => RiemannianMetric.diameter self points = Ok (scalar zero)
  | [S (S _)] => RiemannianMetric.diameter self points
                 = Raise (IndexError "too many indices for array")
  | _ => True
  end.
Proof.
  unfold RiemannianMetric.diameter, shape0.
  destruct (shape points) as [|n rest] eqn:Hs; [reflexivity|].
  destruct n as [|[|n]]; [reflexivity|reflexivity|].
  destruct rest; [|exact I].
  cbn [bind]. replace (S (S n) - 1) with (S n) by lia. cbn [seq fold_left].
  unfold row_of. rewrite Hs. cbn [bind].
  apply fold_left_raise. reflexivity.
Qed.

(** X3: an error of [dist] is not caught by the loops over points.  If the
    first distance [diameter] asks for, from the first point to all the
    others, raises, [diameter] raises the same error; if the first distance
    [dist_pairwise] asks for, from the first point to itself, raises,
    [dist_pairwise] raises the same error. *)
Theorem first_distance_error_surfaces
        (self : metric_object) (points : ndarray R)
        (n d0 : nat) (s : list nat) (e : exn) :
  shape points = S n :: d0 :: s ->
  (RiemannianMetric.dist self
     (subarray (d0 :: s) (data points) 0)
     (mk_array ((S n - 1) :: d0 :: s)
               (skipn (1 * prod_shape (d0 :: s)) (data points))) = Raise e ->
   1 <= n ->
   RiemannianMetric.diameter self points = Raise e)
  /\ (RiemannianMetric.dist self
        (subarray (d0 :: s) (data points) 0)
        (subarray (d0 :: s) (data points) 0) = Raise e ->
      RiemannianMetric.dist_pairwise self points = Raise e).
Proof.
  intros Hs. split.
  - intros Hd Hn. unfold RiemannianMetric.diameter, shape0. rewrite Hs.
    cbn [bind]. destruct n as [|n]; [lia|].
    replace (S (S n) - 1) with (S n) by lia.
    match goal with |- fold_left ?F _ _ = _ => set (body := F) end.
    cbn [seq fold_left].
    assert (body (Ok (scalar zero)) 0 = Raise e) as ->.
    { unfold body, row_of, rows_from, slice_from. rewrite Hs. cbn [bind].
      cbn [Nat.ltb Nat.leb Nat.add]. cbn [bind]. rewrite Hd. reflexivity. }
    apply fold_left_raise. reflexivity.
  - intros Hd. unfold RiemannianMetric.dist_pairwise,
      RiemannianMetric.pairwise_dist_values, iter_array. rewrite Hs.
    cbn [bind seq map]. unfold enumerate. cbn [length seq combine mapM fst snd].
    unfold slice_from. rewrite Hs. cbn [bind].
    cbn [shape data bind seq map mapM Nat.mul skipn Nat.sub].
    rewrite Hd. reflexivity.
Qed.

End NormsAndDistances.

(** ** The diameter as a running maximum *)

Section Diameter.
Context {B : Backend}.

(** An order on the scalars that [max] respects: [max x y] is one of its
    arguments and is above both. *)
Variable le : R -> R -> Prop.
Hypothesis le_refl : forall x, le x x.
Hypothesis le_trans : forall x y z, le x y -> le y z -> le x z.
Hypothesis max_l : forall x y, le x (max x y).
Hypothesis max_r : forall x y, le y (max x y).
Hypothesis max_choice : forall x y, max x y = x \/ max x y = y.

Lemma fold_max_bounds (xs : list R) (x : R) :
  le x (fold_left max xs x)
  /\ (forall e, In e xs -> le e (fold_left max xs x))
  /\ In (fold_left max xs x) (x :: xs).
Proof.
  revert x. induction xs as [|y xs IH]; intros x; simpl.
  - split; [apply le_refl|]. split; [intros e []|left; reflexivity].
  - destruct (IH (max x y)) as (H1 & H2 & H3). split; [|split].
    + eapply le_trans; [apply max_l | exact H1].
    + intros e [<-|He]; [|now apply H2].
      eapply le_trans; [apply max_r | exact H1].
    + destruct H3 as [H3|H3]; [|right; right; exact H3].
      destruct (max_choice x y) as [E|E]; [left | right; left];
        (transitivity (max x y); [symmetry; exact E | exact H3]).
Qed.

Lemma maximum_scalars (x y : R) :
  maximum (scalar x) (scalar y) = Ok (scalar (max x y)).
Proof. reflexivity. Qed.

(** X4: on [n >= 2] points held in an array of two or more axes, when the
    distances from each point to the points after it come back as non-empty
    arrays, [diameter] returns a 0-d array whose value is at least [0.0] and
    at least every distance evaluated, and is [0.0] or one of those
    distances. *)
Theorem diameter_bounds_every_distance
        (self : metric_object) (points : ndarray R)
        (n d0 : nat) (s : list nat) (r : nat -> ndarray R) :
  shape points = n :: d0 :: s ->
  (forall i, i < n - 1 ->
     RiemannianMetric.dist self
       (subarray (d0 :: s) (data points) i)
       (mk_array ((n - (i + 1)) :: d0 :: s)
                 (skipn ((i + 1) * prod_shape (d0 :: s)) (data points)))
     = Ok (r i)) ->
  (forall i, i < n - 1 -> data (r i) <> []) ->
  exists v,
    RiemannianMetric.diameter self points = Ok (scalar v)
    /\ le zero v
    /\ (forall i e, i < n - 1 -> In e (data (r i)) -> le e v)
    /\ (v = zero \/ exists i e, i < n - 1 /\ In e (data (r i)) /\ v = e).
Proof.
  intros Hs Hd Hne.
  unfold RiemannianMetric.diameter, shape0. rewrite Hs. cbn [bind].
  match goal with |- context [fold_left ?F _ _] => set (body := F) end.
  assert (forall l acc,
            (forall i, In i l -> i < n - 1) ->
            exists v, fold_left body l (Ok (scalar acc)) = Ok (scalar v)
                      /\ le acc v
                      /\ (forall i e, In i l -> In e (data (r i)) -> le e v)
                      /\ (v = acc \/ exists i e, In i l /\ In e (data (r i)) /\ v = e))
    as Hloop.
  { induction l as [|i l IH]; intros acc Hl.
    - exists acc. split; [reflexivity|]. split; [apply le_refl|].
      split; [intros i e []|left; reflexivity].
    - assert (i < n - 1) as Hi by (apply Hl; left; reflexivity).
      destruct (data (r i)) as [|x xs] eqn:Hx; [now elim (Hne i Hi)|].
      assert (body (Ok (scalar acc)) i = Ok (scalar (max acc (fold_left max xs x))))
        as Hstep.
      { unfold body, row_of, rows_from, slice_from. rewrite Hs. cbn [bind].
        destruct (Nat.ltb_spec i n) as [_|Hge]; [|lia]. cbn [bind].
        rewrite (Hd i Hi). cbn [bind]. unfold amax. rewrite Hx. cbn [bind].
        apply maximum_scalars. }
      cbn [fold_left]. rewrite Hstep.
      destruct (IH (max acc (fold_left max xs x))) as (v & Hv & H1 & H2 & H3);
        [intros j Hj; apply Hl; right; exact Hj|].
      destruct (fold_max_bounds xs x) as (F1 & F2 & F3).
      exists v. split; [exact Hv|]. split; [|split].
      + eapply le_trans; [apply max_l | exact H1].
      + intros j e [<-|Hj] He; [|now apply (H2 j e)].
        rewrite Hx in He.
        eapply le_trans; [|exact H1]. eapply le_trans; [|apply max_r].
        destruct He as [<-|He]; [exact F1 | now apply F2].
      + destruct H3 as [H3|(j & e & Hj & He & H3)].
        * destruct (max_choice acc (fold_left max xs x)) as [E|E];
            [left; congruence|].
          right. exists i, v. split; [left; reflexivity|]. split; [|reflexivity].
          rewrite Hx, H3, E. exact F3.
        * right. exists j, e. split; [right; exact Hj|]. split; assumption. }
  destruct (Hloop (seq 0 (n - 1)) zero) as (v & Hv & H1 & H2 & H3).
  { intros i Hi. apply in_seq in Hi. lia. }
  exists v. split; [exact Hv|]. split; [exact H1|]. split.
  - intros i e Hi He. apply (H2 i e); [|exact He]. apply in_seq. lia.
  - destruct H3 as [H3|(i & e & Hi & He & H3)]; [left; exact H3|].
    right. exists i, e. apply in_seq in Hi. split; [lia|]. split; assumption.
Qed.

End Diameter.

(** ** The closest neighbor *)

Section ClosestNeighbor.
Context {B : Backend}.

(** The comparison of the scalars is a strict order in which being not
    smaller is transitive, as it is away from NaN. *)
Hypothesis ltb_irrefl : forall x, ltb x x = false.
Hypothesis ltb_trans :
  forall x y z, ltb x y = true -> ltb y z = true -> ltb x z = true.
Hypothesis ltb_below :
  forall x y z, ltb x y = true -> ltb z y = false -> ltb x z = true.

Lemma argmin_from_first_smallest (l pre : list R) (best : R) (best_i : nat) :
  best_i < length pre ->
  nth best_i (pre ++ l) zero = best ->
  (forall j, j < length pre -> ltb (nth j (pre ++ l) zero) best = false) ->
  (forall j, j < best_i -> ltb best (nth j (pre ++ l) zero) = true) ->
  let res := argmin_from best best_i (length pre) l in
  res < length (pre ++ l)
  /\ (forall j, j < length (pre ++ l) ->
        ltb (nth j (pre ++ l) zero) (nth res (pre ++ l) zero) = false)
  /\ (forall j, j < res ->
        ltb (nth res (pre ++ l) zero) (nth j (pre ++ l) zero) = true).
Proof.
  revert pre best best_i. induction l as [|x l IH]; intros pre best best_i Hb Hn H1 H2.
  - simpl. rewrite app_nil_r in *. split; [exact Hb|]. rewrite Hn.
    split; assumption.
  - assert (pre ++ x :: l = (pre ++ [x]) ++ l) as E by now rewrite <- app_assoc.
    assert (nth (length pre) (pre ++ x :: l) zero = x) as Hx
        by (rewrite app_nth2, Nat.sub_diag by lia; reflexivity).
    assert (length (pre ++ [x]) = S (length pre)) as Hlen
        by (rewrite length_app; simpl; lia).
    cbn [argmin_from]. destruct (ltb x best) eqn:Hlt.
    + specialize (IH (pre ++ [x]) x (length pre)).
      rewrite Hlen, <- E in IH. apply IH.
      * lia.
      * exact Hx.
      * intros j Hj. destruct (Nat.eq_dec j (length pre)) as [->|Hne].
        { rewrite Hx. apply ltb_irrefl. }
        destruct (ltb (nth j (pre ++ x :: l) zero) x) eqn:Hjx; [|reflexivity].
        rewrite <- (H1 j) by lia. symmetry. now apply (ltb_trans _ x).
      * intros j Hj. apply (ltb_below _ best); [exact Hlt|]. apply H1. exact Hj.
    + specialize (IH (pre ++ [x]) best best_i).
      rewrite Hlen, <- E in IH. apply IH.
      * lia.
      * exact Hn.
      * intros j Hj. destruct (Nat.eq_dec j (length pre)) as [->|Hne].
        { rewrite Hx. exact Hlt. }
        apply H1. lia.
      * exact H2.
Qed.

(** X5: when the distances from the point to the neighbors come back as a
    non-empty array, [closest_neighbor_index] returns a position of that
    array at which the distance is smallest, and the first such position:
    no distance is below the one at the returned position and every distance
    before it is strictly above. *)
Theorem closest_neighbor_index_first_smallest
        (self : metric_object) (point neighbors dists : ndarray R) :
  RiemannianMetric.dist self point neighbors = Ok dists ->
  data dists <> [] ->
  exists k,
    RiemannianMetric.closest_neighbor_index self point neighbors = Ok k
    /\ k < length (data dists)
    /\ (forall j, j < length (data dists) ->
          ltb (nth j (data dists) zero) (nth k (data dists) zero) = false)
    /\ (forall j, j < k ->
          ltb (nth k (data dists) zero) (nth j (data dists) zero) = true).
Proof.
  intros Hd Hne. unfold RiemannianMetric.closest_neighbor_index.
  rewrite Hd. cbn [bind]. unfold argmin.
  destruct (data dists) as [|x xs]; [now elim Hne|].
  eexists. split; [reflexivity|].
  apply (@argmin_from_first_smallest xs [x] x 0).
  - simpl; lia.
  - reflexivity.
  - intros j Hj. simpl in Hj. replace j with 0 by lia. apply ltb_irrefl.
  - intros j Hj. lia.
Qed.

End ClosestNeighbor.

(** ** The Hamiltonian *)

Section HamiltonianValue.
Context {B : Backend}.

Lemma einsum_ij_j_spec (m v : ndarray R) (d : nat) :
  shape m = [d; d] -> shape v = [d] ->
  exists r, einsum "...ij,...j->...i" m v = Ok r
    /\ shape r = [d]
    /\ forall i, i < d ->
         get zero r [i]
         = sum_range d (fun j => mul (get zero m [i; j]) (get zero v [j])).
Proof.
  intros Hm Hv. unfold einsum, split_dims. cbn. rewrite Hm, Hv. cbn.
  rewrite !Nat.eqb_refl. cbn.
  eexists. split; [reflexivity|]. split; [reflexivity|].
  intros i Hi. rewrite get_build by (repeat constructor; assumption).
  reflexivity.
Qed.

Lemma einsum_i_i_spec (u v : ndarray R) (d : nat) :
  shape u = [d] -> shape v = [d] ->
  einsum "...i,...i->..." u v
  = Ok (scalar (sum_range d (fun i => mul (get zero u [i]) (get zero v [i])))).
Proof.
  intros Hu Hv. unfold einsum, split_dims. cbn. rewrite Hu, Hv. cbn.
  rewrite !Nat.eqb_refl. cbn. reflexivity.
Qed.

(** X6: for one covector pair of length [d] and a cometric matrix of order
    [d], [inner_coproduct] returns a 0-d array, with no batch axis, holding
    the sum over [i] of [covector_1[i]] times the sum over [j] of
    [cometric[i][j] * covector_2[j]]; [hamiltonian] of the state
    [(position, momentum)] is half that value at both covectors equal to the
    momentum. *)
Theorem hamiltonian_is_half_inner_coproduct
        (self : cometric_object) (position momentum covector k : ndarray R)
        (d : nat) :
  self_cometric_matrix self (Some position) = Ok k ->
  shape k = [d; d] ->
  shape momentum = [d] ->
  shape covector = [d] ->
  let pairing := fun c1 c2 : ndarray R =>
    sum_range d (fun i =>
      mul (get zero c1 [i])
          (sum_range d (fun j => mul (get zero k [i; j]) (get zero c2 [j])))) in
  RiemannianCometric.inner_coproduct self covector momentum position
  = Ok (scalar (pairing covector momentum))
  /\ RiemannianCometric.hamiltonian self (PTuple [PArr position; PArr momentum])
     = Ok (PArr (scalar (mul half (pairing momentum momentum)))).
Proof.
  intros Hk Hs Hm Hc pairing.
  destruct (einsum_ij_j_spec k momentum Hs Hm) as (v2 & E2 & S2 & G2).
  assert (forall c, shape c = [d] ->
            RiemannianCometric.inner_coproduct self c momentum position
            = Ok (scalar (pairing c momentum))) as Hco.
  { intros c Hcs. unfold RiemannianCometric.inner_coproduct.
    rewrite Hk. cbn [bind]. rewrite E2. cbn [bind].
    rewrite (einsum_i_i_spec c v2 Hcs S2). cbn [bind].
    do 2 f_equal. apply sum_range_ext. intros i Hi. f_equal. now apply G2. }
  split; [now apply Hco|].
  unfold RiemannianCometric.hamiltonian. cbn [unpack2 as_array bind].
  rewrite (Hco momentum Hm). reflexivity.
Qed.

End HamiltonianValue.

(** ** The second term of the Christoffel symbols *)

Lemma length_of_index (s idx : list nat) :
  In idx (indices s) -> length idx = length s.
Proof.
  revert idx. induction s as [|n s IH]; intros idx; simpl.
  - intros [<-|[]]. reflexivity.
  - rewrite in_flat_map. intros (i & _ & Hin).
    apply in_map_iff in Hin. destruct Hin as (tl & <- & Htl).
    simpl. f_equal. now apply IH.
Qed.

Lemma build_ext {A} (s : list nat) (f g : list nat -> A) :
  (forall idx, length idx = length s -> f idx = g idx) -> build s f = build s g.
Proof.
  intros H. unfold build. f_equal. apply map_ext_in.
  intros idx Hin. apply H. now apply length_of_index.
Qed.

Section ChristoffelTerms.
Context {B : Backend}.

Lemma christoffel_terms_coincide (c dg : ndarray R) (d : nat) :
  shape c = [d; d] -> shape dg = [d; d; d] ->
  einsum "...im,...mlk->...ilk" c dg = einsum "...im,...mkl->...ikl" c dg.
Proof.
  intros Hc Hd. unfold einsum, split_dims. cbn. rewrite Hc, Hd. cbn.
  rewrite !Nat.eqb_refl. cbn. f_equal. apply build_ext.
  intros idx Hlen.
  destruct idx as [|i [|k [|l [|? ?]]]]; try discriminate Hlen.
  reflexivity.
Qed.

(** X7: in [christoffels] the contraction ["...im,...mlk->...ilk"] of
    [term_2] is the contraction ["...im,...mkl->...ikl"] of [term_1] with two
    labels renamed: the two terms are the same array.  For a cometric [c] of
    shape [(d, d)] and a derivative [dg] of shape [(d, d, d)], entry
    [(i, k, l)] of the result is half of: twice the sum over [m] of
    [c[i][m] * dg[m][k][l]], minus the sum over [m] of
    [c[i][m] * dg[k][l][m]].  The derivative is never read at [(m, l, k)]. *)
Theorem christoffels_second_term_repeats_first
        (self : metric_object) (base_point g c dg : ndarray R) (d : nat) :
  self_metric_matrix self (Some base_point) = Ok g ->
  linalg_inv g = Ok c ->
  jacobian (fun x => self_metric_matrix self (Some x)) base_point = Ok dg ->
  shape c = [d; d] ->
  shape dg = [d; d; d] ->
  einsum "...im,...mlk->...ilk" c dg = einsum "...im,...mkl->...ikl" c dg
  /\ exists gamma,
       RiemannianMetric.christoffels self base_point = Ok gamma
       /\ forall i k l, i < d -> k < d -> l < d ->
            let first := sum_range d (fun m =>
                           mul (get zero c [i; m]) (get zero dg [m; k; l])) in
            let third := sum_range d (fun m =>
                           mul (get zero c [i; m]) (get zero dg [k; l; m])) in
            get zero gamma [i; k; l]
            = mul half (add (add first first) (neg third)).
Proof.
  intros Hg Hinv Hjac Hc Hdg.
  pose proof (christoffel_terms_coincide c dg Hc Hdg) as Hsame.
  split; [exact Hsame|].
  destruct (einsum_im_mkl_spec c dg Hc Hdg) as (t1 & E1 & S1 & W1 & G1).
  destruct (einsum_im_klm_spec c dg Hc Hdg) as (t3 & E3 & S3 & W3 & G3).
  destruct (@broadcast2_same_rank3 _ add t1 t1 d S1 S1) as (t12 & E12 & S12 & W12 & G12).
  destruct (@broadcast2_same_rank3 _ add t12 (map_array neg t3) d S12 S3)
    as (t123 & E123 & S123 & W123 & G123).
  exists (map_array (mul half) t123). split.
  { unfold RiemannianMetric.christoffels,
      RiemannianMetric.inner_product_inverse_matrix,
      RiemannianMetric.inner_product_derivative_matrix.
    rewrite Hg. cbn [bind]. rewrite Hinv. cbn [bind]. rewrite Hjac. cbn [bind].
    rewrite Hsame, E1. cbn [bind]. rewrite E3. cbn [bind].
    rewrite E12. cbn [bind]. rewrite E123. reflexivity. }
  intros i k l Hi Hk Hl first third.
  rewrite (get_map_array zero zero (mul half) W123)
    by (rewrite S123; repeat constructor; assumption).
  rewrite G123, G12 by assumption.
  rewrite (get_map_array zero zero neg W3)
    by (rewrite S3; repeat constructor; assumption).
  rewrite G1, G3 by assumption. reflexivity.
Qed.

End ChristoffelTerms.

(** X8: what [christoffels] returns need not be symmetric in its two lower
    indices.  On the plane with the metric [diag(1, 1 + x0^2)], at the point
    [(1, 0)], the entry [(1, 1, 0)] is [1] and the entry [(1, 0, 1)] is
    [0]. *)
Theorem christoffels_lower_indices_not_symmetric :
  exists (B : Backend) (self : @metric_object B) (base_point gamma : ndarray R)
         (i k l : nat),
    RiemannianMetric.christoffels self base_point = Ok gamma
    /\ shape gamma = [2; 2; 2] /\ i < 2 /\ k < 2 /\ l < 2
    /\ get zero gamma [i; k; l] <> get zero gamma [i; l; k].
Proof.
  exists QExample.QBackend, QExample.warped, (QExample.vec [1; 0]%Q).
  eexists. exists 1, 1, 0.
  split; [reflexivity|]. split; [reflexivity|].
  repeat (split; [lia|]). discriminate.
Qed.

(** ** Failures of the gradient and of the exponential map *)

Section Failures.
Context {B : Backend}.

(** X9: [grad] picks the axes [(0, 2, 1)] for a metric matrix of three axes
    and [(1, 0)] for any other.  When the logarithm has returned and the
    metric matrix has neither two nor three axes, the transposition is
    refused and [grad] raises [ValueError]. *)
Theorem grad_refuses_other_ranks
        (metric : metric_object) (y_pred y_true t g : ndarray R) :
  self_log metric y_true y_pred = Ok t ->
  self_metric_matrix metric (Some y_pred) = Ok g ->
  ndim g <> 2 -> ndim g <> 3 ->
  grad y_pred y_true metric = Raise (ValueError "axes don't match array").
Proof.
  intros Hlog Hmat H2 H3. unfold grad. rewrite Hlog, Hmat. cbn [bind].
  destruct (Nat.eqb_spec (ndim g) 3) as [E|_]; [contradiction|].
  unfold transpose, is_permutation. cbn [length].
  destruct (Nat.eqb_spec 2 (ndim g)) as [E|_]; [now elim H2|].
  reflexivity.
Qed.

(** X10: [exp] adds nothing to what the integrator does and catches nothing.
    An error of the integrator is the error of [exp]; a result that is a pair
    whose first component is an empty sequence makes [flow[-1]] fail with
    [IndexError]; and [point_type] has no influence on the result. *)
Theorem exp_failures
        (self : cometric_object) (cotangent_vec base_point : ndarray R)
        (n_steps : option nat) (step point_type : option string) :
  let run := integrate (RiemannianCometric.Hamiltonian_equation self)
               (PTuple [PArr base_point; PArr cotangent_vec])
               (match n_steps with Some n => n | None => 10 end)
               (match step with Some s => s | None => "euler" end) in
  (forall e, run = Raise e ->
     RiemannianCometric.exp self cotangent_vec base_point n_steps step point_type
     = Raise e)
  /\ (forall momenta, run = Ok (PTuple [PTuple []; momenta]) ->
        RiemannianCometric.exp self cotangent_vec base_point n_steps step point_type
        = Raise (IndexError "index out of range"))
  /\ (forall other : option string,
        RiemannianCometric.exp self cotangent_vec base_point n_steps step other
        = RiemannianCometric.exp self cotangent_vec base_point n_steps step
                                 point_type).
Proof.
  intros run. unfold RiemannianCometric.exp. change N_STEPS with 10. fold run.
  split; [|split].
  - intros e ->. reflexivity.
  - intros momenta ->. reflexivity.
  - reflexivity.
Qed.

End Failures.

(** ** The checks on sampled points *)

Section SampledChecks.
Context {B : Backend}.

Lemma assertEqual_passes (a b : nat) :
  ManifoldTestCase.assertEqual a b = Ok tt <-> a = b.
Proof.
  unfold ManifoldTestCase.assertEqual.
  destruct (Nat.eqb_spec a b); split; intros; try discriminate; auto.
  contradiction.
Qed.

Lemma assertShapeEqual_passes (a b : list nat) :
  ManifoldTestCase.assertShapeEqual a b = Ok tt <-> a = b.
Proof.
  unfold ManifoldTestCase.assertShapeEqual.
  destruct (list_eqb Nat.eqb a b) eqn:E.
  - apply (list_eqb_eq Nat.eqb a b Nat.eqb_eq) in E. tauto.
  - split; [discriminate|]. intros ->.
    assert (list_eqb Nat.eqb b b = true) as E'
        by (apply (list_eqb_eq Nat.eqb b b Nat.eqb_eq); reflexivity).
    congruence.
Qed.

(** X11: for a space whose points have at least one axis, with [point_ndim]
    the length of the declared shape, [test_random_point_shape] passes
    exactly when the sampled array has the declared shape, behind one batch
    axis of length [n_points] when [n_points] is two or more and behind none
    when [n_points] is zero or one. *)
Theorem test_random_point_shape_passes
        (space : sampled_fixture) (n_points : nat) (point : ndarray R) :
  random_point space n_points = Ok point ->
  point_ndim space = length (space_shape (sampled_space space)) ->
  1 <= point_ndim space ->
  (ManifoldTestCase.test_random_point_shape space n_points = Ok tt
   <-> shape point = (if 1 <? n_points then [n_points] else [])
                     ++ space_shape (sampled_space space)).
Proof.
  intros Hp Hnd Hpos. unfold ManifoldTestCase.test_random_point_shape.
  rewrite Hp. cbn [bind].
  set (decl := space_shape (sampled_space space)) in *.
  unfold ManifoldTestCase.last_entries, ndim, shape0.
  destruct (Nat.eqb_spec (point_ndim space) 0) as [E0|_]; [lia|].
  destruct (1 <? n_points) eqn:Hn.
  - split.
    + intros H.
      destruct (ManifoldTestCase.assertEqual (length (shape point)) (point_ndim space + 1))
        as [[]|e] eqn:A1; [|discriminate H].
      apply assertEqual_passes in A1. cbn [bind] in H.
      destruct (ManifoldTestCase.assertShapeEqual
                  (skipn (length (shape point) - point_ndim space) (shape point)) decl)
        as [[]|e] eqn:A2; [|discriminate H].
      apply assertShapeEqual_passes in A2. cbn [bind] in H.
      destruct (shape point) as [|first rest] eqn:Hs; [simpl in A1; lia|].
      cbn [bind] in H. apply assertEqual_passes in H. subst first.
      replace (length (n_points :: rest) - point_ndim space) with 1 in A2
        by (rewrite A1; lia).
      simpl in A2. subst rest. reflexivity.
    + intros Hs. rewrite Hs. cbn [app length].
      replace (S (length decl)) with (point_ndim space + 1) by lia.
      replace (ManifoldTestCase.assertEqual (point_ndim space + 1) (point_ndim space + 1))
        with (Ok tt) by (symmetry; now apply assertEqual_passes).
      cbn [bind].
      replace (point_ndim space + 1 - point_ndim space) with 1 by lia.
      cbn [skipn].
      replace (ManifoldTestCase.assertShapeEqual decl decl)
        with (Ok tt) by (symmetry; now apply assertShapeEqual_passes).
      cbn [bind]. now apply assertEqual_passes.
  - rewrite Nat.add_0_r. split.
    + intros H.
      destruct (ManifoldTestCase.assertEqual (length (shape point)) (point_ndim space))
        as [[]|e] eqn:A1; [|discriminate H].
      apply assertEqual_passes in A1. cbn [bind] in H.
      destruct (ManifoldTestCase.assertShapeEqual
                  (skipn (length (shape point) - point_ndim space) (shape point)) decl)
        as [[]|e] eqn:A2; [|discriminate H].
      apply assertShapeEqual_passes in A2.
      rewrite A1, Nat.sub_diag in A2. exact A2.
    + intros Hs. rewrite Hs. cbn [app].
      replace (ManifoldTestCase.assertEqual (length decl) (point_ndim space))
        with (Ok tt) by (symmetry; now apply assertEqual_passes).
      cbn [bind]. rewrite <- Hnd, Nat.sub_diag. cbn [skipn].
      replace (ManifoldTestCase.assertShapeEqual decl decl)
        with (Ok tt) by (symmetry; now apply assertShapeEqual_passes).
      reflexivity.
Qed.

(** X12: for a space whose points have no axis ([point_ndim] zero, declared
    shape empty), [test_random_point_shape] cannot pass with two or more
    points: the slice [shape[-0:]] is the whole shape of the sample, batch
    axis included, and is compared with the empty declared shape. *)
Theorem test_random_point_shape_scalar_points
        (space : sampled_fixture) (n_points : nat) :
  point_ndim space = 0 ->
  space_shape (sampled_space space) = [] ->
  2 <= n_points ->
  ManifoldTestCase.test_random_point_shape space n_points <> Ok tt.
Proof.
  intros Hnd Hdecl Hn. unfold ManifoldTestCase.test_random_point_shape.
  destruct (random_point space n_points) as [point|e]; [|discriminate].
  cbn [bind]. rewrite Hnd, Hdecl.
  unfold ManifoldTestCase.last_entries. cbn [Nat.eqb Nat.add].
  destruct (Nat.ltb_spec 1 n_points) as [_|Hle]; [|lia].
  unfold ndim, ManifoldTestCase.assertEqual, ManifoldTestCase.assertShapeEqual.
  destruct (shape point) as [|first rest]; cbn [length Nat.eqb bind].
  - intros H. discriminate H.
  - destruct (length rest =? 0); cbn [bind list_eqb]; intros H; discriminate H.
Qed.

(** X13: on a space whose declared shape is empty, [test_not_belongs] stops
    at [shape[0] += 1] with [IndexError], whatever the number of points and
    whatever the membership predicate, which is not called. *)
Theorem test_not_belongs_empty_shape
        (space : space_fixture) (n_points : nat) (atol : R) :
  space_shape space = [] ->
  ManifoldTestCase.test_not_belongs space n_points atol
  = Raise (IndexError "list index out of range")
  /\ forall other_belongs,
       ManifoldTestCase.test_not_belongs (mk_space [] other_belongs) n_points atol
       = Raise (IndexError "list index out of range").
Proof.
  intros Hs. unfold ManifoldTestCase.test_not_belongs,
    ManifoldTestCase.not_belongs_data. rewrite Hs. split; reflexivity.
Qed.

End SampledChecks.

(** ** The inner product of a batch *)

Section BatchedInnerProduct.
Context {B : Backend}.

Lemma broadcast_shapes_against_one (n : nat) :
  broadcast_shapes [n] [1] = Ok [n].
Proof.
  unfold broadcast_shapes. cbn.
  destruct (Nat.eqb_spec n 1) as [->|_]; reflexivity.
Qed.

(** X14: the inner product of a batch is taken vector by vector.  For a batch
    [a] of [n] vectors of length [d], one vector [b] and one metric matrix of
    order [d], [inner_product] returns an array of shape [(n,)], and its
    entry [i] is the single value [inner_product] returns for the vector
    [a[i]] alone, which is a 0-d array when the base point is absent or is
    one point. *)
Theorem inner_product_of_batch_is_rowwise
        (self : metric_object) (a b : ndarray R) (bp : option (ndarray R))
        (g : ndarray R) (n d i : nat) :
  shape a = [n; d] ->
  shape b = [d] ->
  self_metric_matrix self (option_map vectorize_vector bp) = Ok g ->
  shape g = [d; d] ->
  i < n ->
  exists r ri,
    RiemannianMetric.inner_product self a b bp = Ok r
    /\ RiemannianMetric.inner_product self (subarray [d] (data a) i) b bp = Ok ri
    /\ shape r = [n]
    /\ shape ri
       = (if match bp with Some p => length (shape p) <? 2 | None => true end
          then [] else [1])
    /\ nth i (data r) zero = nth 0 (data ri) zero.
Proof.
  intros Ha Hb Hg Hgs Hi.
  assert (shape (vectorize_vector a) = [n; d]) as Ha'
      by (apply shape_vectorize_vector; right; exact Ha).
  assert (shape (vectorize_vector b) = [1; d]) as Hb'
      by (apply shape_vectorize_vector; left; split; [exact Hb | reflexivity]).
  assert (shape (vectorize_vector (subarray [d] (data a) i)) = [1; d]) as Hai'
      by (apply shape_vectorize_vector; left; split; reflexivity).
  assert (matrix_batch (shape g) 1 d) as Hgm
      by (left; split; [exact Hgs | reflexivity]).
  destruct (@inner_product_body_entries _ self _ _ _ g d n 1 1 n n Ha' Hb' Hg Hgm)
    as (rb & Erb & Srb & Grb); try apply broadcast_shapes_against_one.
  destruct (@inner_product_body_entries _ self _ _ _ g d 1 1 1 1 1 Hai' Hb' Hg Hgm)
    as (rib & Erib & Srib & Grib); try reflexivity.
  destruct (adapt_result_of_rows
              (RiemannianMetric.vector_argument_shapes a b bp) rb Srb)
    as [Dr Sr].
  destruct (adapt_result_of_rows
              (RiemannianMetric.vector_argument_shapes
                 (subarray [d] (data a) i) b bp) rib Srib)
    as [Dri Sri].
  eexists. eexists.
  split; [unfold RiemannianMetric.inner_product; rewrite Erb; reflexivity|].
  split; [unfold RiemannianMetric.inner_product; rewrite Erib; reflexivity|].
  split; [|split].
  - rewrite Sr. unfold RiemannianMetric.vector_argument_shapes, came_unbatched.
    rewrite Ha. reflexivity.
  - rewrite Sri. unfold RiemannianMetric.vector_argument_shapes, came_unbatched.
    rewrite Hb. cbn [subarray shape forallb length Nat.ltb Nat.leb andb Nat.eqb].
    destruct bp as [p|]; cbn [forallb]; rewrite !andb_true_r; reflexivity.
  - rewrite Dr, Dri, (Grb i Hi), (Grib 0) by lia.
    apply sum_range_ext. intros k Hk. f_equal.
    apply sum_range_ext. intros j Hj. f_equal.
    cbn [bcast_index length Nat.sub skipn combine map fst snd app Nat.eqb].
    rewrite (bcast_index_same Hi), (bcast_index_same Hi).
    unfold vectorize_vector, to_ndarray, ndim, expand_dims, insert_at, subarray, get.
    rewrite Ha. cbn. rewrite nth_firstn, nth_skipn.
    destruct (Nat.ltb_spec (j * 1 + 0) (d * 1)) as [_|Hge]; [|lia].
    f_equal. rewrite Ha. reflexivity.
Qed.

End BatchedInnerProduct.

(** ** The upper triangle of the pairwise distances *)

Section UpperTriangle.
Context {B : Backend}.

Lemma pairwise_dist_values_upper (self : metric_object) (point : ndarray R)
      (n : nat) (s : list nat) (d : nat -> nat -> ndarray R) :
  shape point = n :: s ->
  (forall i j, i <= j -> j < n ->
     RiemannianMetric.dist self (subarray s (data point) i)
                                (subarray s (data point) j) = Ok (d i j)) ->
  RiemannianMetric.pairwise_dist_values self point
  = Ok (concat (map (fun i => map (d i) (seq i (n - i))) (seq 0 n))).
Proof.
  intros Hs Hd. unfold RiemannianMetric.pairwise_dist_values, iter_array.
  rewrite Hs; simpl bind. rewrite enumerate_map_seq.
  rewrite (@mapM_ok _ _ _ (fun ix => map (d (fst ix)) (seq (fst ix) (n - fst ix)))).
  - simpl. rewrite map_map. reflexivity.
  - intros [i x] Hin. apply in_map_iff in Hin. destruct Hin as (i' & E & Hi).
    inversion E; subst. apply in_seq in Hi. unfold slice_from. rewrite Hs.
    simpl.
    rewrite (map_ext _ (fun j => subarray s (data point) (i + j)))
      by (intros j; apply subarray_skipn).
    rewrite map_seq_shift.
    assert (forall l, (forall j, In j l -> i <= j < n) ->
              mapM (fun y => RiemannianMetric.dist self (subarray s (data point) i) y)
                   (map (subarray s (data point)) l)
              = Ok (map (d i) l)) as Hm.
    { induction l as [|j l IH]; intros Hl; simpl; [reflexivity|].
      destruct (Hl j (or_introl eq_refl)) as [Hij Hjn].
      rewrite Hd by assumption. simpl.
      rewrite IH by (intros k Hk; apply Hl; right; exact Hk). reflexivity. }
    rewrite Hm; [reflexivity|]. intros j Hj. apply in_seq in Hj. lia.
Qed.

(** X15: [dist_pairwise] asks for the distance from [p_i] to [p_j] only when
    [i <= j].  For [n] points on which those distances come back, whether or
    not [dist] is symmetric on them, the matrix has [n] rows of [n] entries
    and the entry of row [i] and column [j] is the distance from the point of
    smaller index to the point of larger index. *)
Theorem dist_pairwise_mirrors_upper_triangle
        (self : metric_object) (point : ndarray R)
        (n : nat) (s : list nat) (d : nat -> nat -> ndarray R) :
  shape point = n :: s ->
  (forall i j, i <= j -> j < n ->
     RiemannianMetric.dist self (subarray s (data point) i)
                                (subarray s (data point) j) = Ok (d i j)) ->
  exists D,
    RiemannianMetric.dist_pairwise self point = Ok D
    /\ length D = n
    /\ forall i j, i < n -> j < n ->
         length (nth i D []) = n
         /\ nth j (nth i D []) (scalar zero) = d (Nat.min i j) (Nat.max i j).
Proof.
  intros Hs Hd.
  exists (map (fun i => map (fun j => d (Nat.min i j) (Nat.max i j)) (seq 0 n))
              (seq 0 n)).
  split.
  { unfold RiemannianMetric.dist_pairwise.
    rewrite (pairwise_dist_values_upper self point d Hs Hd). simpl bind.
    apply from_vector_rows. }
  split; [now rewrite length_map, length_seq|].
  intros i j Hi Hj.
  rewrite (nth_indep _ [] (map (fun j => d (Nat.min 0 j) (Nat.max 0 j)) (seq 0 n)))
    by (now rewrite length_map, length_seq).
  rewrite (map_nth (fun i => map (fun j => d (Nat.min i j) (Nat.max i j)) (seq 0 n))),
    seq_nth by exact Hi.
  split; [now rewrite length_map, length_seq|].
  rewrite (nth_indep _ (scalar zero) (d (Nat.min (0 + i) 0) (Nat.max (0 + i) 0)))
    by (now rewrite length_map, length_seq).
  rewrite (map_nth (fun j => d (Nat.min (0 + i) j) (Nat.max (0 + i) j))),
    seq_nth by exact Hj.
  reflexivity.
Qed.

End UpperTriangle.

(** ** The further properties on concrete data *)

Lemma qmax_above_left (x y : Q) : Qle x (QExample.qmax x y).
Proof.
  unfold QExample.qmax. destruct (Qle_bool x y) eqn:E.
  - now apply Qle_bool_iff.
  - apply Qle_refl.
Qed.

Lemma qmax_above_right (x y : Q) : Qle y (QExample.qmax x y).
Proof.
  unfold QExample.qmax. destruct (Qle_bool x y) eqn:E.
  - apply Qle_refl.
  - apply Qlt_le_weak, Qnot_le_lt. intros H. apply Qle_bool_iff in H. congruence.
Qed.

Lemma qmax_chooses (x y : Q) :
  QExample.qmax x y = x \/ QExample.qmax x y = y.
Proof. unfold QExample.qmax. destruct (Qle_bool x y); auto. Qed.

Lemma qltb_lt (x y : Q) : QExample.qltb x y = true <-> Qlt x y.
Proof.
  unfold QExample.qltb. rewrite negb_true_iff. split.
  - intros E. apply Qnot_le_lt. intros H. apply Qle_bool_iff in H. congruence.
  - intros H. destruct (Qle_bool y x) eqn:E; [|reflexivity].
    apply Qle_bool_iff in E. now elim (Qlt_not_le _ _ H).
Qed.

Lemma qltb_ge (x y : Q) : QExample.qltb x y = false <-> Qle y x.
Proof.
  unfold QExample.qltb. rewrite negb_false_iff. apply Qle_bool_iff.
Qed.

Lemma first_distance_error_surfaces_witness :
  RiemannianMetric.diameter QFixtures.abstract_metric
    (mk_array [2; 2] [0; 0; 3; 4]%Q) = Raise metric_matrix_error
  /\ RiemannianMetric.dist_pairwise QFixtures.abstract_metric
       (mk_array [2; 2] [0; 0; 3; 4]%Q) = Raise metric_matrix_error.
Proof.
  destruct (@first_distance_error_surfaces QExample.QBackend
              QFixtures.abstract_metric (mk_array [2; 2] [0; 0; 3; 4]%Q)
              1 2 [] metric_matrix_error eq_refl) as [H1 H2].
  split; [apply H1; [reflexivity | lia] | apply H2; reflexivity].
Defined.

(** Three points of the Euclidean plane at distances [5], [4] and [3]: the
    diameter is [5]. *)
Lemma diameter_bounds_every_distance_witness :
  exists v,
    RiemannianMetric.diameter (QExample.euclidean 2)
      (mk_array [3; 2] [0; 0; 3; 4; 0; 4]%Q) = Ok (scalar v)
    /\ Qle 0 v.
Proof.
  pose (points := mk_array [3; 2] [0; 0; 3; 4; 0; 4]%Q).
  pose (r := fun i : nat =>
          match RiemannianMetric.dist (QExample.euclidean 2)
                  (subarray [2] (data points) i)
                  (mk_array [3 - (i + 1); 2] (skipn ((i + 1) * 2) (data points))) with
          | Ok v => v
          | Raise _ => scalar 0%Q
          end).
  destruct (@diameter_bounds_every_distance QExample.QBackend Qle
              Qle_refl Qle_trans qmax_above_left qmax_above_right qmax_chooses
              (QExample.euclidean 2) points 3 2 [] r) as (v & Hv & Hle & _).
  - reflexivity.
  - intros i Hi. destruct i as [|[|i]]; [reflexivity|reflexivity|simpl in Hi; lia].
  - intros i Hi. destruct i as [|[|i]]; [discriminate|discriminate|simpl in Hi; lia].
  - exists v. split; [exact Hv | exact Hle].
Defined.

(** Neighbors of the origin at distances [5], [1] and [2]. *)
Lemma closest_neighbor_index_first_smallest_witness :
  exists k,
    RiemannianMetric.closest_neighbor_index (QExample.euclidean 2)
      (QExample.vec [0; 0]%Q) (mk_array [3; 2] [3; 4; 0; 1; 0; 2]%Q) = Ok k
    /\ k < 3.
Proof.
  destruct (@closest_neighbor_index_first_smallest QExample.QBackend)
    with (self := QExample.euclidean 2) (point := QExample.vec [0; 0]%Q)
         (neighbors := mk_array [3; 2] [3; 4; 0; 1; 0; 2]%Q)
         (dists := mk_array [3] [5; 1; 2]%Q)
    as (k & Hk & Hlt & _).
  - intros x. apply qltb_ge. apply Qle_refl.
  - intros x y z Hxy Hyz. apply qltb_lt. apply qltb_lt in Hxy, Hyz.
    now apply (Qlt_trans _ y).
  - intros x y z Hxy Hzy. apply qltb_lt. apply qltb_lt in Hxy.
    apply qltb_ge in Hzy. now apply (Qlt_le_trans _ y).
  - reflexivity.
  - discriminate.
  - exists k. split; [exact Hk | exact Hlt].
Defined.

Lemma hamiltonian_is_half_inner_coproduct_witness :
  RiemannianCometric.hamiltonian (QExample.flat_cometric 2)
    (PTuple [PArr (QExample.vec [0; 0]%Q); PArr (QExample.vec [3; 4]%Q)])
  = Ok (PArr (scalar (25 # 2)%Q)).
Proof.
  destruct (@hamiltonian_is_half_inner_coproduct QExample.QBackend
              (QExample.flat_cometric 2) (QExample.vec [0; 0]%Q)
              (QExample.vec [3; 4]%Q) (QExample.vec [1; 2]%Q) (QExample.eye 2) 2
              eq_refl eq_refl eq_refl eq_refl) as [_ H].
  exact H.
Defined.

Lemma christoffels_second_term_repeats_first_witness :
  exists gamma,
    RiemannianMetric.christoffels QExample.warped (QExample.vec [1; 0]%Q) = Ok gamma.
Proof.
  destruct (@christoffels_second_term_repeats_first QExample.QBackend QExample.warped
              (QExample.vec [1; 0]%Q)
              (mk_array [2; 2] [1; 0; 0; 2]%Q)
              (mk_array [2; 2] [1; 0; 0; 1 # 2]%Q)
              (mk_array [2; 2; 2] [0; 0; 0; 0; 0; 0; 2; 0]%Q) 2
              eq_refl eq_refl eq_refl eq_refl eq_refl)
    as (_ & gamma & Hg & _).
  exists gamma. exact Hg.
Defined.

Lemma grad_refuses_other_ranks_witness :
  @grad QExample.QBackend (QExample.vec [0; 0]%Q) (QExample.vec [3; 4]%Q)
        QFixtures.stacked_metric
  = Raise (ValueError "axes don't match array").
Proof.
  apply (@grad_refuses_other_ranks QExample.QBackend QFixtures.stacked_metric
           (QExample.vec [0; 0]%Q) (QExample.vec [3; 4]%Q)
           (QExample.vec [3; 4]%Q) (mk_array [1; 1; 2; 2] [1; 0; 0; 1]%Q));
    try reflexivity; discriminate.
Defined.

Lemma test_random_point_shape_passes_witness :
  ManifoldTestCase.test_random_point_shape (QFixtures.sampled_vectors 3) 2 = Ok tt.
Proof.
  apply (@test_random_point_shape_passes QExample.QBackend
           (QFixtures.sampled_vectors 3) 2 (full [2; 3] 1%Q));
    reflexivity.
Defined.

Lemma test_random_point_shape_scalar_points_witness :
  ManifoldTestCase.test_random_point_shape QFixtures.sampled_scalars 2 <> Ok tt.
Proof.
  apply (@test_random_point_shape_scalar_points QExample.QBackend
           QFixtures.sampled_scalars 2); [reflexivity | reflexivity | lia].
Defined.

Lemma test_not_belongs_empty_shape_witness :
  ManifoldTestCase.test_not_belongs QFixtures.scalar_space 2 0%Q
  = Raise (IndexError "list index out of range").
Proof.
  apply (@test_not_belongs_empty_shape QExample.QBackend
           QFixtures.scalar_space 2 0%Q eq_refl).
Defined.

Lemma inner_product_of_batch_is_rowwise_witness :
  exists r ri,
    RiemannianMetric.inner_product (QExample.euclidean 2)
      (mk_array [2; 2] [1; 2; 5; 6]%Q) (QExample.vec [3; 4]%Q) None = Ok r
    /\ RiemannianMetric.inner_product (QExample.euclidean 2)
         (QExample.vec [5; 6]%Q) (QExample.vec [3; 4]%Q) None = Ok ri
    /\ shape r = [2] /\ shape ri = []
    /\ nth 1 (data r) 0%Q = nth 0 (data ri) 0%Q.
Proof.
  destruct (@inner_product_of_batch_is_rowwise QExample.QBackend
              (QExample.euclidean 2) (mk_array [2; 2] [1; 2; 5; 6]%Q)
              (QExample.vec [3; 4]%Q) None (QExample.eye 2) 2 2 1
              eq_refl eq_refl eq_refl eq_refl) as (r & ri & Hr & Hri & Sr & Sri & H).
  - lia.
  - exists r, ri. split; [exact Hr|]. split; [exact Hri|].
    split; [exact Sr|]. split; [exact Sri | exact H].
Defined.

(** The warped plane with the flat logarithm: from [(0,0)] to [(3,4)] the
    distance is [5], from [(3,4)] to [(0,0)] it is [13]; both mirrored
    entries hold [5]. *)
Lemma dist_pairwise_mirrors_upper_triangle_witness :
  exists D,
    RiemannianMetric.dist_pairwise QExample.warped
      (mk_array [2; 2] [0; 0; 3; 4]%Q) = Ok D
    /\ nth 0 (nth 1 D []) (scalar 0%Q) = scalar 5%Q
    /\ RiemannianMetric.dist QExample.warped
         (QExample.vec [3; 4]%Q) (QExample.vec [0; 0]%Q)
       = Ok (scalar 13%Q).
Proof.
  pose (points := mk_array [2; 2] [0; 0; 3; 4]%Q).
  pose (d := fun i j : nat =>
          match RiemannianMetric.dist QExample.warped
                  (subarray [2] (data points) i) (subarray [2] (data points) j) with
          | Ok v => v
          | Raise _ => scalar 0%Q
          end).
  destruct (@dist_pairwise_mirrors_upper_triangle QExample.QBackend
              QExample.warped points 2 [2] d) as (D & HD & _ & Hentries).
  - reflexivity.
  - intros i j Hij Hj.
    destruct i as [|[|i]]; destruct j as [|[|j]]; try lia; reflexivity.
  - exists D. split; [exact HD|]. split; [|reflexivity].
    destruct (Hentries 1 0) as [_ E]; [lia | lia |].
    refine (eq_trans E _). reflexivity.
Defined.
